(** * geopandas: map rendering (geoplotting.py) and PostGIS I/O (io/sql.py)

    A shallow embedding of the two modules and the properties of their
    specification.  Python exceptions are values of [exn]; a call that may
    raise returns a [result].  Floating point numbers are modelled by exact
    rationals ([Q]). *)

From Stdlib Require Import ZArith QArith Qround Qminmax String Ascii List Lia Lqa.
From Stdlib Require Import DecimalString Sorted.
From stdpp Require Import gmap strings list.

Import ListNotations.
Local Open Scope string_scope.

(** ** Python exceptions and calls that may raise *)

Module Py.

Inductive exn : Type :=
| ValueError (msg : string)
| KeyError (key : string)
| UnboundLocalError (name : string)
| AttributeError (name : string)
| TypeError (msg : string)
| WKBReadingError.

Inductive result (A : Type) : Type :=
| Ok (a : A)
| Raise (e : exn).

Arguments Ok {A} a.
Arguments Raise {A} e.

Definition bind {A B} (c : result A) (k : A -> result B) : result B :=
  match c with
  | Ok a => k a
  | Raise e => Raise e
  end.

(** [mapM f l] runs [f] on the elements of [l] from left to right and stops
    at the first exception. *)
Fixpoint mapM {A B} (f : A -> result B) (l : list A) : result (list B) :=
  match l with
  | [] => Ok []
  | x :: l' =>
      bind (f x) (fun y => bind (mapM f l') (fun ys => Ok (y :: ys)))
  end.

(** [str] of a Python integer. *)
Definition str (z : Z) : string := NilZero.string_of_int (Z.to_int z).

(** [s.upper()] on ASCII text. *)
Definition upper_ascii (c : ascii) : ascii :=
  let n := nat_of_ascii c in
  if (97 <=? n)%nat && (n <=? 122)%nat then ascii_of_nat (n - 32) else c.

Fixpoint upper (s : string) : string :=
  match s with
  | EmptyString => EmptyString
  | String c s' => String (upper_ascii c) (upper s')
  end.

End Py.

#[global] Instance result_ret : MRet Py.result := @Py.Ok.
#[global] Instance result_bind : MBind Py.result :=
  fun A B k c => Py.bind c k.

(** ** Geometries

    Geometry objects belong to the geometry library (shapely).  The two
    modules only read five attributes of a geometry: its [geom_type], its
    [centroid], its [bounds], its [wkt] text and its SRID; a geometry is the
    record of these.

    [geom_kind] has the seven kinds whose names [_geom_type_to_postgis]
    tests.  A geometry of another kind (a LinearRing) and a null geometry,
    whose [geom_type] is [None], are outside it; what the chain returns on
    those is stated over the [geom_type] values themselves, by
    [SqlNotions.postgis_of_types]. *)

Inductive geom_kind : Type :=
| Point | LineString | Polygon | MultiPoint | MultiLineString | MultiPolygon
| GeometryCollection.

Definition kind_name (k : geom_kind) : string :=
  match k with
  | Point => "Point"
  | LineString => "LineString"
  | Polygon => "Polygon"
  | MultiPoint => "MultiPoint"
  | MultiLineString => "MultiLineString"
  | MultiPolygon => "MultiPolygon"
  | GeometryCollection => "GeometryCollection"
  end.

Record bbox : Type := mk_bbox { minx : Q; miny : Q; maxx : Q; maxy : Q }.

Record geometry : Type := mk_geometry {
  kind : geom_kind;
  centroid : Q * Q;          (* (x, y) = (lon, lat) *)
  bounds : bbox;
  wkt : string;
  srid : Z                   (* the SRID GEOS keeps with it, 0 if none *)
}.

Definition geom_type (g : geometry) : string := kind_name (kind g).

(** The geometry [Point(x, y)]: it is its own centroid and bounding box.
    The sample geometries carry the tag of their WKT text only. *)
Definition mk_point (x y : Q) : geometry :=
  {| kind := Point; centroid := (x, y);
     bounds := mk_bbox x y x y; wkt := "POINT"; srid := 0 |}.

(** The axis-parallel rectangle with corners [(x0, y0)] and [(x1, y1)], as a
    Polygon. *)
Definition mk_box (x0 y0 x1 y1 : Q) : geometry :=
  {| kind := Polygon;
     centroid := (((x0 + x1) / 2)%Q, ((y0 + y1) / 2)%Q);
     bounds := mk_bbox x0 y0 x1 y1; wkt := "POLYGON"; srid := 0 |}.

(** ** io/sql.py *)

Module Sql.
Import Py.

(** [_geom_type_to_postgis(gdf)]: [gdf.geom_type == 'Polygon'] is the
    element-wise comparison of the kind names, [all] its conjunction. *)
Definition all_geom_type (gdf : list geometry) (name : string) : bool :=
  forallb (fun g => String.eqb (geom_type g) name) gdf.

Definition _geom_type_to_postgis (gdf : list geometry) : string :=
  if all_geom_type gdf "Polygon" then "POLYGON"
  else if all_geom_type gdf "MultiPolygon" then "MULTIPOLYGON"
  else if all_geom_type gdf "Point" then "POINT"
  else if all_geom_type gdf "LineString" then "LINESTRING"
  else if all_geom_type gdf "MultiPoint" then "MULTIPOINT"
  else if all_geom_type gdf "GeometryCollection" then "GEOMETRYCOLLECTION"
  else if all_geom_type gdf "MultiLineString" then "MULTILINESTRING"
  else "GEOMETRY".

(** *** Frames

    A DataFrame is its columns in order, a column its name and cells.  A
    GeoDataFrame adds the name of the geometry column and the CRS. *)

Inductive cell : Type :=
| CBytes (b : string)
| CStr (s : string)
| CInt (z : Z)
| CGeom (g : geometry)
| CWKTElement (data : string) (srid : Z).

Definition DataFrame : Type := list (string * list cell).

Inductive crs_t : Type :=
| CrsInit (init : string)       (* {"init": ...} *)
| CrsStr (s : string).

Record GeoDataFrame : Type := mk_gdf {
  columns : DataFrame;
  geometry_name : string;
  crs : option crs_t
}.

(** [c in df] *)
Definition has_column (df : DataFrame) (c : string) : bool :=
  existsb (String.eqb c) (map fst df).

(** [df[c]] *)
Fixpoint get_column (df : DataFrame) (c : string) : result (list cell) :=
  match df with
  | [] => Raise (KeyError c)
  | (n, v) :: df' => if String.eqb n c then Ok v else get_column df' c
  end.

(** [df[c] = v]: replaces the column, or appends it when [c] is new. *)
Fixpoint set_column (df : DataFrame) (c : string) (v : list cell) : DataFrame :=
  match df with
  | [] => [(c, v)]
  | (n, x) :: df' =>
      if String.eqb n c then (n, v) :: df' else (n, x) :: set_column df' c v
  end.

(** [str(x)] of a cell. *)
Definition cell_str (x : cell) : string :=
  match x with
  | CBytes b => b
  | CStr s => s
  | CInt z => str z
  | CGeom g => wkt g
  | CWKTElement d _ => d
  end.

Definition MissingColumnError (geom_col : string) : exn :=
  ValueError ("Query missing geometry column '" ++ geom_col ++ "'").

(** [gdf.geometry]: the geometries of the geometry column. *)
Definition as_geom (x : cell) : result geometry :=
  match x with
  | CGeom g => Ok g
  | _ => Raise (AttributeError "geom_type")
  end.

Definition geometry_of (gdf : GeoDataFrame) : result (list geometry) :=
  match get_column (columns gdf) (geometry_name gdf) with
  | Ok col => mapM as_geom col
  | Raise _ => Raise (AttributeError "geometry")
  end.

(** *** The object store

    [write_postgis] receives a reference to the caller's frame and, in
    [kwargs], possibly a reference to the caller's [dtype] dictionary.
    Objects live in a store; [df.copy()] allocates. *)

Inductive sqltype : Type :=
| Geometry (geometry_type : string) (srid : Z)
| ColumnType (name : string).

Inductive obj : Type :=
| OFrame (f : GeoDataFrame)
| ODict (d : gmap string sqltype).

Abbreviation loc := positive (only parsing).
Abbreviation heap := (gmap positive obj) (only parsing).

Definition M (A : Type) : Type := heap -> heap * result A.

Definition retM {A} (a : A) : M A := fun h => (h, Ok a).

Definition bindM {A B} (c : M A) (k : A -> M B) : M B :=
  fun h => match c h with
           | (h', Ok a) => k a h'
           | (h', Raise e) => (h', Raise e)
           end.

Definition lift {A} (r : result A) : M A := fun h => (h, r).

Definition alloc (o : obj) : M loc :=
  fun h => let l := fresh (dom h) in (<[l := o]> h, Ok l).

Definition get_frame (l : loc) : M GeoDataFrame :=
  fun h => match h !! l with
           | Some (OFrame f) => (h, Ok f)
           | _ => (h, Raise (AttributeError "copy"))
           end.

Definition put_frame (l : loc) (f : GeoDataFrame) : M unit :=
  fun h => (<[l := OFrame f]> h, Ok tt).

Definition get_dict (l : loc) : M (gmap string sqltype) :=
  fun h => match h !! l with
           | Some (ODict d) => (h, Ok d)
           | _ => (h, Raise (AttributeError "setdefault"))
           end.

(** [d.setdefault(k, v)] on the dictionary object at [l]. *)
Definition dict_setdefault (l : loc) (k : string) (v : sqltype) : M unit :=
  fun h => match h !! l with
           | Some (ODict d) =>
               match d !! k with
               | Some _ => (h, Ok tt)
               | None => (<[l := ODict (<[k := v]> d)]> h, Ok tt)
               end
           | _ => (h, Raise (AttributeError "setdefault"))
           end.

(** [keeps l v c Q]: from a store holding the object [v] at [l], the
    command [c] leaves [v] at [l], raising or not, and a returned value
    satisfies [Q]. *)
Definition keeps (l : loc) (v : obj) {A} (c : M A) (Q : A -> Prop) : Prop :=
  forall h : heap, h !! l = Some v ->
    (c h).1 !! l = Some v /\ forall a, (c h).2 = Ok a -> Q a.

Record kwargs_t : Type := mk_kwargs {
  dtype : option loc;
  if_exists : option string
}.

Section External.

(** [shapely.wkb.loads(data, hex=...)], [None] when the data is malformed. *)
Variable wkb_loads : string -> bool -> option geometry.
(** [geopandas.tools.util.crs_to_srid] *)
Variable crs_to_srid : option crs_t -> result Z.
(** [DataFrame.to_sql(name, con, dtype=..., if_exists=...)]: reads the frame
    it is called on. *)
Variable to_sql :
  GeoDataFrame -> string -> gmap string sqltype -> option string -> result unit.

Definition load_geom (hex_encoded : bool) (x : cell) : result geometry :=
  let r := match x with
           | CBytes b => wkb_loads b hex_encoded
           | _ => wkb_loads (cell_str x) hex_encoded
           end in
  match r with
  | Some g => Ok g
  | None => Raise WKBReadingError
  end.

(** [read_postgis]; [df] is what [pd.read_sql] returned under the default
    index ([index_col] not given), so that the label lookup [geoms[0]] is
    the first row.  A read with [index_col] is not modelled. *)
Definition read_postgis (df : DataFrame) (geom_col : string)
    (crs : option crs_t) (hex_encoded : bool) : result GeoDataFrame :=
  if negb (has_column df geom_col) then Raise (MissingColumnError geom_col)
  else
    col ← get_column df geom_col;
    geoms ← mapM (load_geom hex_encoded) col;
    let df := set_column df geom_col (map CGeom geoms) in
    let crs :=
      match crs with
      | None =>
          match geoms with
          | g :: _ =>
              if (srid g =? 0)%Z then None
              else Some (CrsInit ("epsg:" ++ str (srid g)))
          | [] => None
          end
      | Some c => Some c
      end in
    Ok (mk_gdf df geom_col crs).

Definition write_postgis (df : loc) (name : string) (kwargs : kwargs_t)
  : M unit :=
  bindM (get_frame df) (fun fr =>
  bindM (alloc (OFrame fr)) (fun temp_df =>          (* temp_df = df.copy() *)
  bindM (get_frame temp_df) (fun tmp =>
  bindM (lift (geometry_of tmp)) (fun geoms =>
  let postgis_geom_type := _geom_type_to_postgis geoms in
  bindM (lift (crs_to_srid (crs tmp))) (fun srid =>
  bindM (match dtype kwargs with         (* kwargs.setdefault('dtype', {}) *)
         | Some d => retM d
         | None => alloc (ODict ∅)
         end) (fun d =>
  bindM (dict_setdefault d (geometry_name tmp)
           (Geometry postgis_geom_type srid)) (fun _ =>
  bindM (lift (geometry_of tmp)) (fun geom =>        (* geom = temp_df.geometry *)
  bindM (put_frame temp_df
           (mk_gdf (set_column (columns tmp) (geometry_name tmp)
                      (map (fun x => CWKTElement (wkt x) srid) geom))
                   (geometry_name tmp) (crs tmp))) (fun _ =>
  bindM (get_frame temp_df) (fun tmp' =>
  bindM (get_dict d) (fun dt =>
  lift (to_sql tmp' name dt (if_exists kwargs))))))))))))).

End External.

End Sql.

(** ** geoplotting.py *)

Module Geoplotting.
Import Py.

(** *** Feature Sets

    A row of a GeoDataFrame is a geometry and its attribute values by column
    name; attribute values are integers (years, categories).  A value that
    is missing from a row is pandas' NaN. *)

Record Feature : Type := mk_feature {
  geom : geometry;
  properties : list (string * Z)
}.

Record GeoDataFrame : Type := mk_gdf {
  columns : list string;
  rows : list Feature
}.

Fixpoint lookup_attr (c : string) (ps : list (string * Z)) : option Z :=
  match ps with
  | [] => None
  | (n, v) :: ps' => if String.eqb n c then Some v else lookup_attr c ps'
  end.

Definition has_column (gdf : GeoDataFrame) (c : string) : bool :=
  existsb (String.eqb c) (columns gdf).

(** [max(xs)] and [min(xs)] of Python: the first largest, the first
    smallest element; a ValueError on the empty sequence. *)
Definition max2 (a b : Q) : Q := if Qle_bool b a then a else b.
Definition min2 (a b : Q) : Q := if Qle_bool a b then a else b.

Definition EmptyInputError : exn :=
  ValueError "max() arg is an empty sequence".

Definition py_max (xs : list Q) : result Q :=
  match xs with
  | [] => Raise EmptyInputError
  | x :: xs' => Ok (fold_left max2 xs' x)
  end.

Definition py_min (xs : list Q) : result Q :=
  match xs with
  | [] => Raise (ValueError "min() arg is an empty sequence")
  | x :: xs' => Ok (fold_left min2 xs' x)
  end.

(** [gdf.centroid.x], [gdf.centroid.y] *)
Definition centroid_x (gdf : GeoDataFrame) : list Q :=
  map (fun f => fst (centroid (geom f))) (rows gdf).
Definition centroid_y (gdf : GeoDataFrame) : list Q :=
  map (fun f => snd (centroid (geom f))) (rows gdf).

(** [span = 1 if span < 1 else span].  Latitudes, longitudes and zooms are
    rationals: the arithmetic of [get_auto_zoom] is exact here, and rounded
    to binary64 in the source. *)
Definition clamp_zoom (span : Q) : Q :=
  if Qle_bool 1 span then span else 1%Q.

Definition get_auto_zoom (gdf : GeoDataFrame) : result Q :=
  let lats := centroid_y gdf in
  let lons := centroid_x gdf in
  max_lat ← py_max lats;
  min_lat ← py_min lats;
  max_lon ← py_max lons;
  min_lon ← py_min lons;
  let span :=
    ((13 # 2) - inject_Z (Qceiling (max2 (max_lat - min_lat)
                                         (max_lon - min_lon))) / 10)%Q in
  Ok (clamp_zoom span).

(** Modelled from the spec: [GeoDataFrame.total_bounds], which geopandas
    defines outside these two modules.  The Extent is (min-lon, min-lat,
    max-lon, max-lat) over the bounding boxes of the geometries, and is
    undefined, an error, for the empty Feature Set. *)
Definition bbox_of (bs : list bbox) : result bbox :=
  match bs with
  | [] => Raise EmptyInputError
  | _ =>
      x0 ← py_min (map minx bs);
      y0 ← py_min (map miny bs);
      x1 ← py_max (map maxx bs);
      y1 ← py_max (map maxy bs);
      Ok (mk_bbox x0 y0 x1 y1)
  end.

Definition total_bounds (gdf : GeoDataFrame) : result bbox :=
  bbox_of (map (fun f => bounds (geom f)) (rows gdf)).

Record Center : Type := mk_center { lon : Q; lat : Q }.

Definition get_auto_center (gdf : GeoDataFrame) : result Center :=
  b ← total_bounds gdf;
  let mean_lon := ((minx b + maxx b) / 2)%Q in       (* total_bounds[::2] *)
  let mean_lat := ((miny b + maxy b) / 2)%Q in       (* total_bounds[1::2] *)
  Ok (mk_center mean_lon mean_lat).

(** *** The figure *)

Record GeoJsonFeature : Type := mk_geojson {
  gj_type : string;
  gj_properties : list (string * Z);
  gj_geometry : geometry
}.

Record FeatureCollection : Type := mk_collection {
  features : list GeoJsonFeature;
  fc_type : string
}.

Record Layer : Type := mk_layer {
  sourcetype : string;
  layer_type : string;
  layer_color : string;
  layer_opacity : Q;
  fill_outlinecolor : string;
  source : option FeatureCollection
}.

Record Scattermapbox : Type := mk_trace {
  trace_lat : list Q;
  trace_lon : list Q;
  marker_color : string;
  marker_size : option Z;
  trace_mode : string;
  trace_text : option (list string);
  hoverinfo : string
}.

Record Mapbox : Type := mk_mapbox {
  accesstoken : option string;
  bearing : Z;
  center : Center;
  pitch : Z;
  zoom : Q;
  style : string;
  layers : list Layer
}.

Record Step : Type := mk_step {
  step_args : string * (Z * string * Z); (* [[name], frame/mode/transition] *)
  label : string;
  method : string
}.

Record Sliders : Type := mk_sliders {
  currentvalue_prefix : string;
  transition_duration : Z;
  steps : list Step
}.

Record Button : Type := mk_button {
  button_label : string;
  button_y : Q
}.

Record Layout : Type := mk_layout {
  mapbox : Mapbox;
  sliders : list Sliders;
  updatemenus : list Button
}.

Record Frame : Type := mk_frame {
  frame_data : list Scattermapbox;
  frame_name : string
}.

Record Figure : Type := mk_figure {
  data : list Scattermapbox;
  layout : Layout;
  frames : list Frame
}.

(** *** gdf_to_plotly_layers *)

(** Modelled from the spec: [GeoDataFrame.to_json], defined by geopandas
    outside these two modules.  The interchange payload is a
    FeatureCollection whose [features] array holds one entry per feature,
    in order. *)
Definition feature_json (f : Feature) : GeoJsonFeature :=
  mk_geojson "Feature" (properties f) (geom f).

Definition to_json (gdf : GeoDataFrame) : FeatureCollection :=
  mk_collection (map feature_json (rows gdf)) "FeatureCollection".

(** The keyword overrides of a layer. *)
Record layer_kwargs : Type := mk_layer_kwargs {
  kw_layer_color : option string;
  kw_layer_opacity : option Q
}.

Definition layer_update (l : Layer) (kw : layer_kwargs) : Layer :=
  mk_layer (sourcetype l) (layer_type l)
    (default (layer_color l) (kw_layer_color kw))
    (default (layer_opacity l) (kw_layer_opacity kw))
    (fill_outlinecolor l) (source l).

Definition gdf_to_plotly_layers (gdf : GeoDataFrame)
    (default_layer : option Layer) (kwargs : layer_kwargs) : list Layer :=
  let default_layer :=
    match default_layer with
    | None => layer_update (mk_layer "geojson" "fill" "red" (3 # 10) "red" None)
                kwargs
    | Some l => l
    end in
  let geojson_dict := to_json gdf in
  map (fun geometry =>
         let flattened_geojson := mk_collection [geometry] "FeatureCollection" in
         mk_layer (sourcetype default_layer) (layer_type default_layer)
           (layer_color default_layer) (layer_opacity default_layer)
           (fill_outlinecolor default_layer) (Some flattened_geojson))
      (features geojson_dict).

(** [gdf.loc[gdf.geom_type != 'Point']] *)
Definition shape_rows (gdf : GeoDataFrame) : GeoDataFrame :=
  mk_gdf (columns gdf)
    (List.filter (fun f => negb (String.eqb (geom_type (geom f)) "Point"))
       (rows gdf)).

(** *** plot_markers_with_mapbox *)

Record plot_args : Type := mk_args {
  arg_text : option (list string);
  arg_center : option Center;
  arg_zoom : option Q;
  arg_size : option Z;
  arg_mode : string;
  arg_color : string;
  arg_style : string;
  arg_mapbox_access_token : option string;
  arg_return_fig : bool;
  arg_opacity : Q;
  arg_animate_by : option string
}.

(** The defaults of the signature. *)
Definition default_args : plot_args :=
  mk_args None None None None "markers" "darkblue" "basic" None false (1 # 2)
    None.

(** Truth value of an optional list and of an optional string. *)
Definition truthy_list {A} (o : option (list A)) : bool :=
  match o with
  | Some (_ :: _) => true
  | _ => false
  end.

Definition truthy_str (o : option string) : bool :=
  match o with
  | Some (String _ _) => true
  | _ => false
  end.

(** [gdf[cols]] followed by [iterrows]: a KeyError when a column is not in
    the frame, else the selected values of every row. *)
Fixpoint missing_column (gdf : GeoDataFrame) (cols : list string)
  : option string :=
  match cols with
  | [] => None
  | c :: cols' => if has_column gdf c then missing_column gdf cols' else Some c
  end.

(** [str(x)] of a value of a row.  The values are integers; a row in which
    a selected column has no value is given the text of NaN for it, and the
    float form [iterrows] then gives the other numbers of such a row is not
    modelled. *)
Definition str_value (v : option Z) : string :=
  match v with
  | Some z => str z
  | None => "nan"
  end.

Definition hover_text (gdf : GeoDataFrame) (cols : list string)
  : result (list string) :=
  match missing_column gdf cols with
  | Some c => Raise (KeyError c)
  | None =>
      Ok (map (fun f =>
                 String.concat "_"
                   (map (fun c => str_value (lookup_attr c (properties f)))
                      cols))
            (rows gdf))
  end.

Section Token.

(** [MAPBOX_ACCESS_TOKEN], read from the environment at import. *)
Variable MAPBOX_ACCESS_TOKEN : option string.

(** Lines 61 to 95: the figure of the frame, with the binding of
    [text_col], [None] while the name is unbound. *)
Definition build_figure (gdf : GeoDataFrame) (a : plot_args)
  : result (Figure * option (list string)) :=
  let mapbox_access_token :=
    match arg_mapbox_access_token a with
    | None => MAPBOX_ACCESS_TOKEN
    | Some t => Some t
    end in
  center ← match arg_center a with
           | None => get_auto_center gdf
           | Some c => Ok c
           end;
  zoom ← match arg_zoom a with
         | None => get_auto_zoom gdf
         | Some z => Ok z
         end;
  '(text_col, text) ←
    (if truthy_list (arg_text a)
     then t ← hover_text gdf (default [] (arg_text a));
          Ok (arg_text a, Some t)
     else Ok (None, arg_text a));
  let lon := centroid_x gdf in
  let lat := centroid_y gdf in
  let trace := mk_trace lat lon (arg_color a) (arg_size a) (arg_mode a) text
                 "text" in
  let shape_gdf := shape_rows gdf in
  let layers :=
    gdf_to_plotly_layers shape_gdf None
      (mk_layer_kwargs (Some (arg_color a)) (Some (arg_opacity a))) in
  let layout :=
    mk_layout (mk_mapbox mapbox_access_token 0 center 0 zoom (arg_style a)
                 layers) [] [] in
  Ok (mk_figure [trace] layout [], text_col).

(** *** animate *)

(** [df.groupby(by, as_index=False)] of pandas, iterated: a KeyError when
    [by] is not a column; else the groups in ascending order of their key
    ([sort=True] is the default), each holding its rows in frame order;
    rows whose key is NaN belong to no group. *)
Fixpoint insert_group (k : Z) (f : Feature) (gs : list (Z * list Feature))
  : list (Z * list Feature) :=
  match gs with
  | [] => [(k, [f])]
  | (k', fs) :: gs' =>
      if (k <? k')%Z then (k, [f]) :: gs
      else if (k =? k')%Z then (k', (fs ++ [f])%list) :: gs'
      else (k', fs) :: insert_group k f gs'
  end.

Definition group_rows (by_ : string) (fs : list Feature)
  : list (Z * list Feature) :=
  fold_left (fun gs f =>
               match lookup_attr by_ (properties f) with
               | Some k => insert_group k f gs
               | None => gs
               end) fs [].

Definition groupby (df : GeoDataFrame) (by_ : string)
  : result (list (Z * GeoDataFrame)) :=
  if has_column df by_
  then Ok (map (fun g => (fst g, mk_gdf (columns df) (snd g)))
             (group_rows by_ (rows df)))
  else Raise (KeyError by_).

(** [values.drop([by], 1)] *)
Definition drop (df : GeoDataFrame) (by_ : string) : GeoDataFrame :=
  mk_gdf (List.filter (fun c => negb (String.eqb c by_)) (columns df))
    (map (fun f =>
            mk_feature (geom f)
              (List.filter (fun p => negb (String.eqb (fst p) by_))
                 (properties f)))
       (rows df)).

(** The keyword arguments [animate] hands on to every group's figure. *)
Record animate_kwargs : Type := mk_animate_kwargs {
  kw_text : option (list string);
  kw_opacity : Q;
  kw_size : option Z;
  kw_color : string;
  kw_mode : string
}.

(** Modelled from the spec: the [iplot] method of a frame, which geopandas
    binds outside these two modules.  The Animation Sequencer builds a
    Scene per group with the Scene Assembler, so [iplot] is
    [plot_markers_with_mapbox]; called with [return_fig=True] and no
    [animate_by] it returns the figure of lines 61 to 95. *)
Definition iplot (gdf : GeoDataFrame) (zoom : Q) (center : Center)
    (kw : animate_kwargs) : result Figure :=
  r ← build_figure gdf
        (mk_args (kw_text kw) (Some center) (Some zoom) (kw_size kw)
           (kw_mode kw) (kw_color kw) "basic" None true (kw_opacity kw) None);
  Ok (fst r).

Definition play_pause_menus : list Button :=
  [mk_button "Play" (-1 # 10); mk_button "Pause" (1 # 20)].

(** The [group_fig] of every turn of the loop, with its key. *)
Definition group_figs (groups : list (Z * GeoDataFrame)) (by_ : string)
    (zoom : Q) (center : Center) (kw : animate_kwargs)
  : result (list (Z * Figure)) :=
  mapM (fun g =>
          group_fig ← iplot (drop (snd g) by_) zoom center kw;
          Ok (fst g, group_fig))
       groups.

Definition frame_of (g : Z * Figure) : Frame :=
  mk_frame (data (snd g)) (str (fst g)).

Definition step_of (g : Z * Figure) : Step :=
  mk_step (str (fst g), (300, "immediate", 300)%Z) (str (fst g)) "animate".

Definition animate (df : GeoDataFrame) (by_ : string) (fig : option Figure)
    (kwargs : animate_kwargs) : result Figure :=
  grouped ← groupby df by_;
  (* Compute once for all the groups *)
  zoom ← get_auto_zoom df;
  center ← get_auto_center df;
  figs ← group_figs grouped by_ zoom center kwargs;
  let frames := map frame_of figs in
  let sliders := mk_sliders (by_ ++ ": ") 300 (map step_of figs) in
  let fig :=
    match fig with
    | Some f => Some f
    | None => option_map snd (head figs)             (* ii == 0 *)
    end in
  match fig with
  | None =>
      Raise (TypeError "'NoneType' object does not support item assignment")
  | Some fig =>
      Ok (mk_figure (data fig)
            (mk_layout (mapbox (layout fig)) [sliders] play_pause_menus)
            frames)
  end.

Inductive outcome : Type :=
| Returned (fig : Figure)          (* return fig *)
| Displayed (fig : Figure).        (* iplot(fig), returns None *)

Definition plot_markers_with_mapbox (gdf : GeoDataFrame) (a : plot_args)
  : result outcome :=
  '(fig, text_col) ← build_figure gdf a;
  fig ← (if truthy_str (arg_animate_by a)
         then
           match text_col with
           | None => Raise (UnboundLocalError "text_col")
           | Some cols =>
               animate gdf (default "" (arg_animate_by a)) (Some fig)
                 (mk_animate_kwargs (Some cols) (arg_opacity a) (arg_size a)
                    (arg_color a) (arg_mode a))
           end
         else Ok fig);
  if arg_return_fig a then Ok (Returned fig) else Ok (Displayed fig).

End Token.

End Geoplotting.

(** ** Notions the properties are stated with *)

Module Spec.
Import Py Geoplotting.

(** The zoom of an Extent in the words of the specification: the larger
    axis span, [6.5 - ceil(span)/10], at least 1. *)
Definition zoom_of_extent (e : bbox) : Q :=
  let span := Qmax (maxy e - miny e) (maxx e - minx e) in
  Qmax 1 ((13 # 2) - inject_Z (Qceiling span) / 10).

(** The bounding box of the centroids of the features. *)
Definition centroid_bounds (gdf : GeoDataFrame) : result bbox :=
  bbox_of (map (fun f => let c := centroid (geom f) in
                         mk_bbox (fst c) (snd c) (fst c) (snd c))
             (rows gdf)).

(** A Point geometry: of kind Point, and its own bounding box. *)
Definition point_bounds (g : geometry) : Prop :=
  bounds g = mk_bbox (fst (centroid g)) (snd (centroid g))
               (fst (centroid g)) (snd (centroid g)).

Definition point_geometry (g : geometry) : Prop :=
  kind g = Point /\ point_bounds g.

Definition is_point (f : Feature) : bool :=
  match kind (geom f) with
  | Point => true
  | _ => false
  end.

(** The payload of a layer for the feature [f]. *)
Definition single_feature (f : Feature) : option FeatureCollection :=
  Some (mk_collection [feature_json f] "FeatureCollection").

(** The grouping-key values of the rows, in frame order (NaN left out). *)
Definition key_values (by_ : string) (fs : list Feature) : list Z :=
  omap (fun f => lookup_attr by_ (properties f)) fs.

(** The distinct values of a list in the order of their first occurrence,
    the group order the specification words describe. *)
Fixpoint first_seen (ks : list Z) : list Z :=
  match ks with
  | [] => []
  | k :: ks' => k :: List.filter (fun x => negb (x =? k)%Z) (first_seen ks')
  end.

Definition group_keys (gs : list (Z * list Feature)) : list Z := map fst gs.

(** Sample data: a Point feature at [(x, x)] with a year. *)
Definition year_row (y : Z) (x : Q) : Feature :=
  mk_feature (mk_point x x) [("year", y)].

Definition plain_kwargs : animate_kwargs :=
  mk_animate_kwargs None (1 # 2) None "darkblue" "markers".

(** Sample data for the PostGIS side: a frame of two points, a decoder
    that accepts every cell, and a database that accepts every write. *)
Definition two_points : Sql.GeoDataFrame :=
  Sql.mk_gdf [("geometry", [Sql.CGeom (mk_point 0 0); Sql.CGeom (mk_point 1 2)]);
              ("year", [Sql.CInt 2000; Sql.CInt 2001])]
    "geometry" None.

Definition loads_any (data : string) (hex : bool) : option geometry :=
  Some (mk_point 0 0).

Definition srid_4326 (c : option Sql.crs_t) : result Z := Ok 4326%Z.

Definition to_sql_ok (f : Sql.GeoDataFrame) (name : string)
    (dt : gmap string Sql.sqltype) (if_exists : option string) : result unit :=
  Ok tt.

(** The caller's store: the frame at 1, an empty [dtype] dictionary at 2. *)
Definition caller_store : gmap positive Sql.obj :=
  {[ 1%positive := Sql.OFrame two_points; 2%positive := Sql.ODict ∅ ]}.

End Spec.

(** ** Further notions: geoplotting.py *)

Module GeoNotions.
Import Py Geoplotting Spec.

(** The zoom of the four extreme centroid coordinates. *)
Definition zoom_of_spans (max_lat min_lat max_lon min_lon : Q) : Q :=
  clamp_zoom ((13 # 2) - inject_Z (Qceiling (max2 (max_lat - min_lat)
                                                  (max_lon - min_lon))) / 10).

(** A bounding box with its corners in order. *)
Definition ordered_bbox (b : bbox) : Prop :=
  (minx b <= maxx b)%Q /\ (miny b <= maxy b)%Q.

(** The figure an outcome carries, returned or displayed. *)
Definition fig_of (o : outcome) : Figure :=
  match o with
  | Returned fig => fig
  | Displayed fig => fig
  end.

(** The figure of lines 61 to 95, once the camera and the hover text are
    there. *)
Definition scene (tok : option string) (gdf : GeoDataFrame) (a : plot_args)
    (c : Center) (z : Q) (text : option (list string)) : Figure :=
  mk_figure
    [mk_trace (centroid_y gdf) (centroid_x gdf) (arg_color a) (arg_size a)
       (arg_mode a) text "text"]
    (mk_layout
       (mk_mapbox (match arg_mapbox_access_token a with
                   | None => tok
                   | Some t => Some t
                   end) 0 c 0 z (arg_style a)
          (gdf_to_plotly_layers (shape_rows gdf) None
             (mk_layer_kwargs (Some (arg_color a)) (Some (arg_opacity a)))))
       [] [])
    [].

(** The figure the frames are attached to: the one passed in, else the
    figure of the first group. *)
Definition base_figure (fig : option Figure) (figs : list (Z * Figure))
  : option Figure :=
  match fig with
  | Some f => Some f
  | None => option_map snd (head figs)
  end.

Definition two_years : GeoDataFrame :=
  mk_gdf ["year"] [year_row 2001 0; year_row 2000 10].

(** A figure to animate, as the render entry point builds it. *)
Definition blank_figure : Figure :=
  mk_figure []
    (mk_layout (mk_mapbox None 0 (mk_center 0 0) 0 3 "dark" []) [] []) [].

Definition has_key (by_ : string) (k : Z) (f : Feature) : bool :=
  match lookup_attr by_ (properties f) with
  | Some k' => (k' =? k)%Z
  | None => false
  end.

(** The groups built from the rows [p]: ascending keys, the keys of [p],
    and under each key the rows of [p] with that key, in order. *)
Definition groups_of (by_ : string) (p : list Feature)
    (gs : list (Z * list Feature)) : Prop :=
  StronglySorted Z.lt (group_keys gs) /\
  (forall k, In k (group_keys gs) <-> In k (key_values by_ p)) /\
  (forall k fs, In (k, fs) gs -> fs = List.filter (has_key by_ k) p).

Definition named_row (y n : Z) (x : Q) : Feature :=
  mk_feature (mk_point x x) [("year", y); ("name", n)].

End GeoNotions.

(** ** Further notions: io/sql.py *)

Module SqlNotions.
Import Py Sql Spec.

(** What the decoder is given for a cell: the bytes as they are, the text
    of anything else. *)
Definition decode (loads : string -> bool -> option geometry) (hex : bool)
    (x : cell) : option geometry :=
  match x with
  | CBytes b => loads b hex
  | _ => loads (cell_str x) hex
  end.

(** The CRS a read assigns: the caller's, else the one of the SRID of the
    first geometry, none for SRID 0 and for no rows. *)
Definition crs_of_read (crs : option crs_t) (geoms : list geometry)
  : option crs_t :=
  match crs with
  | Some c => Some c
  | None =>
      match geoms with
      | g :: _ =>
          if (srid g =? 0)%Z then None
          else Some (CrsInit ("epsg:" ++ str (srid g)))
      | [] => None
      end
  end.

Definition sample_result : DataFrame :=
  [("kind", [CInt 1; CInt 2]);
   ("geom", [CStr "0101"; CBytes "0102"])].

(** A decoder that knows two encodings. *)
Definition loads_two (data : string) (hex : bool) : option geometry :=
  if String.eqb data "0101" then Some (mk_point 1 1)
  else if String.eqb data "0102" then
         Some {| kind := Point; centroid := (2, 2)%Q;
                 bounds := mk_bbox 2 2 2 2; wkt := "POINT"; srid := 4326 |}
       else None.

(** [d.setdefault(k, v)] on the value of a dictionary. *)
Definition setdefault_map (m : gmap string sqltype) (k : string) (v : sqltype)
  : gmap string sqltype :=
  match m !! k with
  | Some _ => m
  | None => <[k := v]> m
  end.

(** The [dtype] dictionary of a call: the caller's, or a new empty one. *)
Definition dtype_of (h : gmap positive obj) (kwargs : kwargs_t)
  : option (gmap string sqltype) :=
  match dtype kwargs with
  | None => Some ∅
  | Some d => match h !! d with
              | Some (ODict m) => Some m
              | _ => None
              end
  end.

(** The frame handed to the database: the geometry column as WKT elements
    with the SRID, the other columns as they are. *)
Definition wkt_frame (fr : GeoDataFrame) (geoms : list geometry) (srid : Z)
  : GeoDataFrame :=
  mk_gdf (set_column (columns fr) (geometry_name fr)
            (map (fun x => CWKTElement (wkt x) srid) geoms))
    (geometry_name fr) (crs fr).

(** A store whose [dtype] dictionary already types the geometry column. *)
Definition typed_store : gmap positive obj :=
  {[ 1%positive := OFrame two_points;
     2%positive := ODict {[ "geometry" := ColumnType "geography" ]} ]}.

(** A database that accepts exactly the write of the two WKT points. *)
Definition to_sql_points (f : GeoDataFrame) (name : string)
    (dt : gmap string sqltype) (if_exists : option string) : result unit :=
  match get_column (columns f) "geometry" with
  | Ok [CWKTElement _ 4326; CWKTElement _ 4326] => Ok tt
  | _ => Raise (ValueError "Table 'cities' already exists.")
  end.

Definition no_srid (c : option crs_t) : result Z :=
  Raise (ValueError "No SRID for this CRS").

(** [_geom_type_to_postgis] on the values of [gdf.geom_type] themselves:
    the name of a kind, also of one the chain does not test (LinearRing),
    or [None] for a null geometry; [None == 'Polygon'] is false. *)
Definition all_type_is (types : list (option string)) (name : string) : bool :=
  forallb (fun t => match t with
                    | Some s => String.eqb s name
                    | None => false
                    end) types.

Definition postgis_of_types (types : list (option string)) : string :=
  if all_type_is types "Polygon" then "POLYGON"
  else if all_type_is types "MultiPolygon" then "MULTIPOLYGON"
  else if all_type_is types "Point" then "POINT"
  else if all_type_is types "LineString" then "LINESTRING"
  else if all_type_is types "MultiPoint" then "MULTIPOINT"
  else if all_type_is types "GeometryCollection" then "GEOMETRYCOLLECTION"
  else if all_type_is types "MultiLineString" then "MULTILINESTRING"
  else "GEOMETRY".

(** The kind a [geom_type] value names, if it is one of the seven. *)
Definition kind_of_type (t : option string) : option geom_kind :=
  match t with
  | None => None
  | Some s =>
      if String.eqb s "Polygon" then Some Polygon
      else if String.eqb s "MultiPolygon" then Some MultiPolygon
      else if String.eqb s "Point" then Some Point
      else if String.eqb s "LineString" then Some LineString
      else if String.eqb s "MultiPoint" then Some MultiPoint
      else if String.eqb s "GeometryCollection" then Some GeometryCollection
      else if String.eqb s "MultiLineString" then Some MultiLineString
      else None
  end.

End SqlNotions.

(** ** Properties of io/sql.py *)

Module SqlFacts.
Import Py Sql Spec.

Lemma kind_name_eqb (k k' : geom_kind) :
  String.eqb (kind_name k) (kind_name k') = true <-> k = k'.
Proof.
  split.
  - destruct k, k'; simpl; intros H; try reflexivity; discriminate H.
  - intros ->. apply String.eqb_refl.
Qed.

Lemma all_geom_type_spec (gdf : list geometry) (k : geom_kind) :
  all_geom_type gdf (kind_name k) = true <-> Forall (fun g => kind g = k) gdf.
Proof.
  unfold all_geom_type. rewrite forallb_forall, Forall_forall.
  split; intros H g Hg.
  - apply kind_name_eqb, H. now apply list_elem_of_In.
  - apply kind_name_eqb, H. now apply list_elem_of_In.
Qed.

Lemma all_geom_type_other (g : geometry) (gs : list geometry) (k k' : geom_kind) :
  Forall (fun x => kind x = k) (g :: gs) -> k <> k' ->
  all_geom_type (g :: gs) (kind_name k') = false.
Proof.
  intros Hall Hne. apply not_true_is_false. intros Ht.
  apply (all_geom_type_spec (g :: gs) k') in Ht.
  apply Forall_inv in Hall. apply Forall_inv in Ht. congruence.
Qed.

Lemma all_geom_type_mixed (gdf : list geometry) (g1 g2 : geometry) (k : geom_kind) :
  In g1 gdf -> In g2 gdf -> kind g1 <> kind g2 ->
  all_geom_type gdf (kind_name k) = false.
Proof.
  intros H1 H2 Hne. apply not_true_is_false. intros Ht.
  apply all_geom_type_spec in Ht. rewrite Forall_forall in Ht.
  apply list_elem_of_In in H1, H2.
  apply Ht in H1, H2. congruence.
Qed.

(** Rewrites the failed test for kind [k] when [Hoff] refutes it. *)
Ltac resolve_off Hoff k :=
  let H := fresh "Hk" in
  try (assert (H := Hoff k ltac:(discriminate));
       simpl kind_name in H; rewrite H).

(** C6: a non-empty Feature Set whose features all have the geometry kind
    [K] resolves to the upper-case name of [K], one of the seven PostGIS
    names; a Feature Set holding two features of different kinds resolves
    to the generic GEOMETRY. *)
Theorem geom_type_to_postgis_resolves (gdf : list geometry) :
  gdf <> [] ->
  (forall K, Forall (fun g => kind g = K) gdf ->
     _geom_type_to_postgis gdf = upper (kind_name K)) /\
  (forall g1 g2, In g1 gdf -> In g2 gdf -> kind g1 <> kind g2 ->
     _geom_type_to_postgis gdf = "GEOMETRY").
Proof.
  intros Hne. split.
  - intros K HK. destruct gdf as [|g gs]; [congruence|].
    pose proof (fun k' => all_geom_type_other g gs K k' HK) as Hoff.
    pose proof (proj2 (all_geom_type_spec (g :: gs) K) HK) as Hon.
    unfold _geom_type_to_postgis.
    destruct K; simpl kind_name in Hon;
      resolve_off Hoff Polygon; resolve_off Hoff MultiPolygon;
      resolve_off Hoff Point; resolve_off Hoff LineString;
      resolve_off Hoff MultiPoint; resolve_off Hoff GeometryCollection;
      resolve_off Hoff MultiLineString; rewrite Hon; reflexivity.
  - intros g1 g2 H1 H2 Hk.
    pose proof (fun k => all_geom_type_mixed gdf g1 g2 k H1 H2 Hk) as Hoff.
    unfold _geom_type_to_postgis.
    pose proof (Hoff Polygon) as H0. pose proof (Hoff MultiPolygon) as H3.
    pose proof (Hoff Point) as H4. pose proof (Hoff LineString) as H5.
    pose proof (Hoff MultiPoint) as H6.
    pose proof (Hoff GeometryCollection) as H7.
    pose proof (Hoff MultiLineString) as H8.
    simpl kind_name in *.
    rewrite H0, H3, H4, H5, H6, H7, H8. reflexivity.
Qed.

Lemma geom_type_to_postgis_resolves_witness :
  _geom_type_to_postgis [mk_point 0 0; mk_point 1 2] = "POINT" /\
  _geom_type_to_postgis [mk_point 0 0; mk_box 0 0 1 1] = "GEOMETRY".
Proof.
  split.
  - apply (proj1 (geom_type_to_postgis_resolves
                    [mk_point 0 0; mk_point 1 2] ltac:(discriminate)) Point).
    repeat constructor.
  - apply (proj2 (geom_type_to_postgis_resolves
                    [mk_point 0 0; mk_box 0 0 1 1] ltac:(discriminate))
             (mk_point 0 0) (mk_box 0 0 1 1)).
    + simpl. auto.
    + simpl. auto.
    + simpl. discriminate.
Defined.

(** C9: the empty Feature Set resolves to POLYGON, because [all] of an
    empty comparison is true and the Polygon test comes first. *)
Theorem geom_type_to_postgis_empty :
  _geom_type_to_postgis [] = "POLYGON" /\
  _geom_type_to_postgis [] <> "GEOMETRY".
Proof. split; [reflexivity | discriminate]. Qed.

End SqlFacts.

Module SqlFrameFacts.
Import Py Sql Spec.

Lemma has_column_In (df : DataFrame) (c : string) :
  has_column df c = true <-> In c (map fst df).
Proof.
  unfold has_column. rewrite existsb_exists. split.
  - intros [x [Hx He]]. apply String.eqb_eq in He. now subst.
  - intros H. exists c. split; [exact H | apply String.eqb_refl].
Qed.

Lemma get_column_In (df : DataFrame) (c : string) :
  In c (map fst df) -> exists col, get_column df c = Ok col.
Proof.
  induction df as [|[n v] df IH]; simpl; [tauto|].
  intros [-> | H].
  - rewrite String.eqb_refl. eauto.
  - destruct (String.eqb n c); eauto.
Qed.

Lemma mapM_load_geom (loads : string -> bool -> option geometry)
    (hex : bool) (col : list cell) :
  (exists gs, mapM (load_geom loads hex) col = Ok gs) \/
  mapM (load_geom loads hex) col = Raise WKBReadingError.
Proof.
  induction col as [|x col IH]; simpl; [eauto|].
  unfold load_geom at 1 3.
  destruct (match x with CBytes b => loads b hex | _ => loads (cell_str x) hex end);
    simpl; [|now right].
  destruct IH as [[gs ->] | ->]; simpl; eauto.
Qed.

(** C7: the read raises the missing-column error exactly when the named
    geometry column is not among the columns of the query result; when the
    column is there, the read returns a frame or fails in the decoder. *)
Theorem read_postgis_missing_column (loads : string -> bool -> option geometry)
    (df : DataFrame) (geom_col : string) (crs : option crs_t) (hex : bool) :
  (read_postgis loads df geom_col crs hex = Raise (MissingColumnError geom_col)
   <-> ~ In geom_col (map fst df)) /\
  (In geom_col (map fst df) ->
   (exists gdf, read_postgis loads df geom_col crs hex = Ok gdf) \/
   read_postgis loads df geom_col crs hex = Raise WKBReadingError).
Proof.
  assert (Hin : In geom_col (map fst df) ->
    (exists gdf, read_postgis loads df geom_col crs hex = Ok gdf) \/
    read_postgis loads df geom_col crs hex = Raise WKBReadingError).
  { intros Hc. unfold read_postgis.
    rewrite (proj2 (has_column_In df geom_col) Hc). simpl.
    destruct (get_column_In df geom_col Hc) as [col ->].
    unfold mbind, result_bind. simpl.
    destruct (mapM_load_geom loads hex col) as [[gs ->] | ->]; simpl; eauto. }
  split; [|exact Hin]. split.
  - intros Hr Hc. unfold MissingColumnError in Hr.
    destruct (Hin Hc) as [[gdf Hg] | Hg]; congruence.
  - intros Hc. unfold read_postgis.
    destruct (has_column df geom_col) eqn:E; [|reflexivity].
    apply has_column_In in E. contradiction.
Qed.

Lemma read_postgis_missing_column_witness :
  let df := [("geom", [CStr "0101000020E6100000"]); ("kind", [CInt 1])] in
  read_postgis loads_any df "geometry" None true
    = Raise (MissingColumnError "geometry") /\
  exists gdf, read_postgis loads_any df "geom" None true = Ok gdf.
Proof.
  intros df. split.
  - apply (proj1 (read_postgis_missing_column loads_any df "geometry" None true)).
    simpl. intros [H | [H | []]]; discriminate H.
  - destruct (proj2 (read_postgis_missing_column loads_any df "geom" None true))
      as [Hok | Herr].
    + simpl. auto.
    + exact Hok.
    + vm_compute in Herr. discriminate Herr.
Defined.

End SqlFrameFacts.

Module StoreFacts.
Import Py Sql Spec.

Section Keeps.

(** The caller's object [v] at [l]. *)
Variable l : loc.
Variable v : obj.

Lemma keeps_ret {A} (a : A) : keeps l v (retM a) (fun _ => True).
Proof. intros h H. split; [exact H | trivial]. Qed.

Lemma keeps_lift {A} (r : result A) : keeps l v (lift r) (fun _ => True).
Proof. intros h H. split; [exact H | trivial]. Qed.

Lemma keeps_weaken {A} (c : M A) (Q Q' : A -> Prop) :
  keeps l v c Q -> (forall a, Q a -> Q' a) -> keeps l v c Q'.
Proof. intros Hc HQ h H. destruct (Hc h H). split; eauto. Qed.

Lemma keeps_bind {A B} (c : M A) (k : A -> M B) (Q : A -> Prop)
    (Q' : B -> Prop) :
  keeps l v c Q -> (forall a, Q a -> keeps l v (k a) Q') -> keeps l v (bindM c k) Q'.
Proof.
  intros Hc Hk h H. unfold bindM.
  destruct (Hc h H) as [H1 H2]. destruct (c h) as [h' [a|e]]; simpl in *.
  - apply (Hk a (H2 a eq_refl) h' H1).
  - split; [exact H1 | discriminate].
Qed.

Lemma keeps_alloc (o : obj) : keeps l v (alloc o) (fun t => t <> l).
Proof.
  intros h H. unfold alloc. simpl.
  assert (Hne : fresh (dom h) <> l).
  { intros E. apply (is_fresh (dom h)). rewrite E. apply elem_of_dom. eauto. }
  split; [by rewrite lookup_insert_ne | congruence].
Qed.

Lemma keeps_get_frame (t : loc) : keeps l v (get_frame t) (fun _ => True).
Proof.
  intros h H. unfold get_frame.
  destruct (h !! t) as [[f|d]|]; simpl; auto.
Qed.

Lemma keeps_get_dict (t : loc) : keeps l v (get_dict t) (fun _ => True).
Proof.
  intros h H. unfold get_dict.
  destruct (h !! t) as [[f|d]|]; simpl; auto.
Qed.

Lemma keeps_put_frame (t : loc) (f : GeoDataFrame) :
  t <> l -> keeps l v (put_frame t f) (fun _ => True).
Proof.
  intros Hne h H. unfold put_frame. simpl.
  split; [by rewrite lookup_insert_ne | trivial].
Qed.

End Keeps.

(** Writing into the dictionary at [d] leaves every frame object alone:
    [d] holds a dictionary, so it is not the frame's location. *)
Lemma keeps_dict_setdefault (l : loc) (fr : GeoDataFrame) (d : loc)
    (k : string) (x : sqltype) :
  keeps l (OFrame fr) (dict_setdefault d k x) (fun _ => True).
Proof.
  intros h H. unfold dict_setdefault.
  destruct (h !! d) as [[f|m]|] eqn:Hd; simpl; auto.
  destruct (m !! k); simpl; auto.
  split; [|trivial]. rewrite lookup_insert_ne; [exact H|].
  intros ->. rewrite H in Hd. discriminate.
Qed.

(** C8: the caller's Feature Set, the frame object at [df], is the same
    frame after the call as before it, whether the call returns or
    raises. *)
Theorem write_postgis_keeps_frame
    (crs_to_srid : option crs_t -> result Z)
    (to_sql : GeoDataFrame -> string -> gmap string sqltype ->
              option string -> result unit)
    (df : loc) (name : string) (kwargs : kwargs_t) (h : heap)
    (fr : GeoDataFrame) :
  h !! df = Some (OFrame fr) ->
  (write_postgis crs_to_srid to_sql df name kwargs h).1 !! df
    = Some (OFrame fr).
Proof.
  intros H.
  cut (keeps df (OFrame fr)
         (write_postgis crs_to_srid to_sql df name kwargs) (fun _ => True)).
  { intros Hk. exact (proj1 (Hk h H)). }
  unfold write_postgis.
  eapply keeps_bind; [apply keeps_get_frame | intros f _].
  eapply keeps_bind; [apply keeps_alloc | intros temp_df Htemp].
  eapply keeps_bind; [apply keeps_get_frame | intros tmp _].
  eapply keeps_bind; [apply keeps_lift | intros geoms _].
  eapply keeps_bind; [apply keeps_lift | intros srid _].
  eapply keeps_bind with (Q := fun _ => True).
  { destruct (dtype kwargs).
    - apply keeps_ret.
    - eapply keeps_weaken; [apply keeps_alloc | trivial]. }
  intros d _.
  eapply keeps_bind; [apply keeps_dict_setdefault | intros _ _].
  eapply keeps_bind; [apply keeps_lift | intros geom _].
  eapply keeps_bind; [apply keeps_put_frame; exact Htemp | intros _ _].
  eapply keeps_bind; [apply keeps_get_frame | intros tmp' _].
  eapply keeps_bind; [apply keeps_get_dict | intros dt _].
  apply keeps_lift.
Qed.

Lemma write_postgis_keeps_frame_witness :
  (write_postgis srid_4326 to_sql_ok 1%positive "cities"
     (mk_kwargs (Some 2%positive) None) caller_store).1 !! 1%positive
  = Some (OFrame two_points).
Proof.
  apply write_postgis_keeps_frame. vm_compute. reflexivity.
Defined.

(** On that store the call returns, the copy holds the WKT elements, and
    the caller's [dtype] dictionary, unlike the frame, has gained the entry
    of the geometry column. *)
Example write_postgis_runs :
  let r := write_postgis srid_4326 to_sql_ok 1%positive "cities"
             (mk_kwargs (Some 2%positive) None) caller_store in
  r.2 = Ok tt /\
  r.1 !! 2%positive = Some (ODict {[ "geometry" := Geometry "POINT" 4326 ]}) /\
  r.1 !! 3%positive =
    Some (OFrame
            (mk_gdf [("geometry", [CWKTElement "POINT" 4326;
                                   CWKTElement "POINT" 4326]);
                     ("year", [CInt 2000; CInt 2001])]
               "geometry" None)).
Proof. vm_compute. auto. Qed.

End StoreFacts.

(** ** Properties of geoplotting.py *)

Module LayerFacts.
Import Py Geoplotting Spec.

Lemma geom_type_Point (f : Feature) :
  String.eqb (geom_type (geom f)) "Point" = is_point f.
Proof. unfold geom_type, is_point. now destruct (kind (geom f)). Qed.

Lemma shape_rows_filter (gdf : GeoDataFrame) :
  rows (shape_rows gdf) = List.filter (fun f => negb (is_point f)) (rows gdf).
Proof.
  unfold shape_rows. simpl. apply filter_ext. intros f.
  now rewrite geom_type_Point.
Qed.

(** C5: the layers built for a Feature Set are, in order, one layer per
    feature that is not a Point, each carrying the FeatureCollection of
    that single feature; so there are as many layers as non-Point features,
    none for a Point, and none at all when every feature is a Point. *)
Theorem layer_builder_one_per_shape (gdf : GeoDataFrame)
    (default_layer : option Layer) (kwargs : layer_kwargs) :
  let shapes := List.filter (fun f => negb (is_point f)) (rows gdf) in
  let layers := gdf_to_plotly_layers (shape_rows gdf) default_layer kwargs in
  map source layers = map single_feature shapes /\
  length layers = length shapes /\
  Forall (fun f => kind (geom f) <> Point) shapes /\
  (forallb is_point (rows gdf) = true -> layers = []).
Proof.
  intros shapes layers.
  assert (Hsrc : map source layers = map single_feature shapes).
  { unfold layers, gdf_to_plotly_layers, to_json. cbn [features].
    rewrite shape_rows_filter. fold shapes.
    rewrite !map_map. reflexivity. }
  split; [exact Hsrc|]. split; [|split].
  - rewrite <- (length_map source layers), Hsrc. apply length_map.
  - apply Forall_forall. intros f Hf.
    apply list_elem_of_In, filter_In in Hf. destruct Hf as [_ Hf].
    unfold is_point in Hf. intros E. rewrite E in Hf. discriminate.
  - intros Hall.
    assert (Hs : shapes = []).
    { unfold shapes. clear Hsrc layers shapes.
      induction (rows gdf) as [|f fs IH]; [reflexivity|].
      simpl in Hall. apply andb_prop in Hall. destruct Hall as [Hf Hfs].
      simpl. rewrite Hf. simpl. now apply IH. }
    rewrite Hs in Hsrc. simpl in Hsrc.
    destruct layers; [reflexivity | discriminate].
Qed.

(** The layers of a scene are those of the Layer Builder, with the color
    and the opacity of the call. *)
Lemma build_figure_layers (tok : option string) (gdf : GeoDataFrame)
    (a : plot_args) (fig : Figure) (tc : option (list string)) :
  build_figure tok gdf a = Ok (fig, tc) ->
  layers (mapbox (layout fig)) =
    gdf_to_plotly_layers (shape_rows gdf) None
      (mk_layer_kwargs (Some (arg_color a)) (Some (arg_opacity a))).
Proof.
  unfold build_figure, mbind, result_bind.
  destruct (match arg_center a with
            | None => get_auto_center gdf
            | Some c => Ok c
            end) as [c|]; simpl; [|discriminate].
  destruct (match arg_zoom a with
            | None => get_auto_zoom gdf
            | Some z => Ok z
            end) as [z|]; simpl; [|discriminate].
  destruct (truthy_list (arg_text a)); simpl.
  - destruct (hover_text gdf _); simpl; [|discriminate].
    now intros [= <- _].
  - now intros [= <- _].
Qed.

End LayerFacts.

Module ZoomFacts.
Import Py Geoplotting Spec.

Lemma max2_Qmax (a b : Q) : (max2 a b == Qmax a b)%Q.
Proof.
  unfold max2. destruct (Qle_bool b a) eqn:E.
  - apply Qle_bool_iff in E. symmetry. now apply Q.max_l.
  - symmetry. apply Q.max_r. apply Qnot_lt_le. intros H.
    apply Qlt_le_weak, Qle_bool_iff in H. congruence.
Qed.

Lemma clamp_zoom_Qmax (s : Q) : (clamp_zoom s == Qmax 1 s)%Q.
Proof.
  unfold clamp_zoom. destruct (Qle_bool 1 s) eqn:E.
  - apply Qle_bool_iff in E. symmetry. now apply Q.max_r.
  - symmetry. apply Q.max_l. apply Qnot_lt_le. intros H.
    apply Qlt_le_weak, Qle_bool_iff in H. congruence.
Qed.

Lemma clamp_zoom_ge_1 (s : Q) : (1 <= clamp_zoom s)%Q.
Proof. rewrite clamp_zoom_Qmax. apply Q.le_max_l. Qed.

Lemma Qceiling_Qeq (a b : Q) : (a == b)%Q -> Qceiling a = Qceiling b.
Proof. intros H. now rewrite H. Qed.

Lemma get_auto_zoom_bounds (gdf : GeoDataFrame) (e : bbox) :
  centroid_bounds gdf = Ok e ->
  exists z, get_auto_zoom gdf = Ok z /\ (z == zoom_of_extent e)%Q.
Proof.
  unfold centroid_bounds, get_auto_zoom, centroid_x, centroid_y, bbox_of.
  rewrite !map_map. simpl.
  destruct (rows gdf) as [|f fs]; [discriminate|].
  simpl. intros [= <-]. eexists. split; [reflexivity|].
  unfold zoom_of_extent. simpl.
  rewrite clamp_zoom_Qmax.
  rewrite (Qceiling_Qeq _ _ (max2_Qmax _ _)). reflexivity.
Qed.

Lemma centroid_bounds_nonempty (gdf : GeoDataFrame) :
  rows gdf <> [] -> exists e, centroid_bounds gdf = Ok e.
Proof.
  unfold centroid_bounds, bbox_of.
  destruct (rows gdf) as [|f fs]; [congruence|]. simpl. eauto.
Qed.

Lemma total_bounds_points (gdf : GeoDataFrame) :
  Forall (fun f => point_geometry (geom f)) (rows gdf) ->
  total_bounds gdf = centroid_bounds gdf.
Proof.
  intros Hp. unfold total_bounds, centroid_bounds. f_equal.
  apply map_ext_in. intros f Hf.
  rewrite Forall_forall in Hp.
  apply list_elem_of_In, Hp in Hf. apply Hf.
Qed.

(** C2, as amended: the auto zoom of a non-empty Feature Set is the zoom
    [6.5 - ceil(max(lat_range, lon_range))/10], at least 1, of the bounding
    box of the features' centroids; that box is the Extent when every
    feature is a Point. *)
Theorem get_auto_zoom_of_centroids (gdf : GeoDataFrame) :
  rows gdf <> [] ->
  exists e z,
    centroid_bounds gdf = Ok e /\
    get_auto_zoom gdf = Ok z /\
    (z == zoom_of_extent e)%Q /\
    (1 <= z)%Q /\
    (Forall (fun f => point_geometry (geom f)) (rows gdf) ->
     total_bounds gdf = Ok e).
Proof.
  intros Hne.
  destruct (centroid_bounds_nonempty gdf Hne) as [e He].
  destruct (get_auto_zoom_bounds gdf e He) as [z [Hz Hq]].
  exists e, z. repeat split; try assumption.
  - rewrite Hq. apply Q.le_max_l.
  - intros Hp. now rewrite total_bounds_points.
Qed.

(** The Feature Set [Point(0,0), Point(10,10)] has zoom 5.5. *)
Lemma get_auto_zoom_of_centroids_witness :
  let gdf := mk_gdf [] [mk_feature (mk_point 0 0) [];
                        mk_feature (mk_point 10 10) []] in
  exists z, get_auto_zoom gdf = Ok z /\ (z == 11 # 2)%Q /\
            total_bounds gdf = Ok (mk_bbox 0 0 10 10).
Proof.
  intros gdf.
  destruct (get_auto_zoom_of_centroids gdf ltac:(discriminate))
    as (e & z & He & Hz & Hq & _ & Ht).
  vm_compute in He. injection He as <-.
  exists z. split; [exact Hz|]. split.
  - rewrite Hq. reflexivity.
  - apply Ht. repeat constructor.
Defined.

(** C2 as stated fails on a Feature Set holding one square Polygon with
    corners (0,0) and (10,10): its Extent has span 10 and zoom 5.5, while
    the code, reading the one centroid (5,5), returns 6.5. *)
Lemma zoom_is_not_of_extent :
  let gdf := mk_gdf [] [mk_feature (mk_box 0 0 10 10) []] in
  total_bounds gdf = Ok (mk_bbox 0 0 10 10) /\
  (zoom_of_extent (mk_bbox 0 0 10 10) == 11 # 2)%Q /\
  exists z, get_auto_zoom gdf = Ok z /\ (z == 13 # 2)%Q /\
            ~ (z == zoom_of_extent (mk_bbox 0 0 10 10))%Q.
Proof.
  intros gdf. split; [reflexivity|]. split; [reflexivity|].
  eexists. split; [reflexivity|]. split; [reflexivity|].
  intros H. vm_compute in H. discriminate H.
Qed.

End ZoomFacts.

Module GroupFacts.
Import Py Geoplotting Spec.

Lemma insert_group_keys (k : Z) (f : Feature) (gs : list (Z * list Feature))
    (x : Z) :
  In x (group_keys (insert_group k f gs)) <-> x = k \/ In x (group_keys gs).
Proof.
  induction gs as [|[k' fs] gs IH]; simpl.
  - intuition.
  - destruct (Z.ltb_spec k k'); simpl; [intuition|].
    destruct (Z.eqb_spec k k'); simpl.
    + subst. intuition.
    + unfold group_keys in IH. rewrite IH. intuition.
Qed.

Lemma insert_group_sorted (k : Z) (f : Feature) (gs : list (Z * list Feature)) :
  StronglySorted Z.lt (group_keys gs) ->
  StronglySorted Z.lt (group_keys (insert_group k f gs)).
Proof.
  induction gs as [|[k' fs] gs IH]; simpl; intros Hs.
  - repeat constructor.
  - apply StronglySorted_inv in Hs. destruct Hs as [Hs Hall].
    destruct (Z.ltb_spec k k'); simpl.
    + constructor; [constructor; assumption|].
      constructor; [assumption|].
      eapply List.Forall_impl; [|exact Hall]. simpl. intros. lia.
    + destruct (Z.eqb_spec k k'); simpl.
      * constructor; assumption.
      * constructor; [now apply IH|].
        apply List.Forall_forall. intros x Hx.
        apply insert_group_keys in Hx. destruct Hx as [-> | Hx]; [lia|].
        rewrite List.Forall_forall in Hall. now apply Hall.
Qed.

Lemma group_rows_fold (by_ : string) (fs : list Feature)
    (acc : list (Z * list Feature)) :
  let gs := fold_left (fun gs f =>
                         match lookup_attr by_ (properties f) with
                         | Some k => insert_group k f gs
                         | None => gs
                         end) fs acc in
  (StronglySorted Z.lt (group_keys acc) -> StronglySorted Z.lt (group_keys gs))
  /\ forall x, In x (group_keys gs) <->
               In x (group_keys acc) \/ In x (key_values by_ fs).
Proof.
  revert acc. induction fs as [|f fs IH]; intros acc; simpl.
  - split; [auto | intuition].
  - destruct (IH (match lookup_attr by_ (properties f) with
                  | Some k => insert_group k f acc
                  | None => acc
                  end)) as [IHs IHk].
    split.
    + intros Hs. apply IHs.
      destruct (lookup_attr by_ (properties f)); [|exact Hs].
      now apply insert_group_sorted.
    + intros x. rewrite IHk. unfold key_values. simpl.
      destruct (lookup_attr by_ (properties f)) as [k|]; simpl.
      * rewrite insert_group_keys. intuition.
      * intuition.
Qed.

(** The keys of the groups ascend strictly and are the key values of the
    rows. *)
Lemma group_rows_keys (by_ : string) (fs : list Feature) :
  StronglySorted Z.lt (group_keys (group_rows by_ fs)) /\
  forall x, In x (group_keys (group_rows by_ fs)) <-> In x (key_values by_ fs).
Proof.
  destruct (group_rows_fold by_ fs []) as [Hs Hk]. split.
  - apply Hs. constructor.
  - intros x. unfold group_rows. rewrite Hk. simpl. intuition.
Qed.

End GroupFacts.

Module AnimateFacts.
Import Py Geoplotting Spec.

Lemma bind_Ok {A B} (c : result A) (k : A -> result B) (b : B) :
  (c ≫= k) = Ok b -> exists a, c = Ok a /\ k a = Ok b.
Proof.
  unfold mbind, result_bind, bind. destruct c; [eauto | discriminate].
Qed.

Lemma build_figure_camera (tok : option string) (gdf : GeoDataFrame)
    (a : plot_args) (c : Center) (z : Q) (fig : Figure)
    (tc : option (list string)) :
  arg_center a = Some c -> arg_zoom a = Some z ->
  build_figure tok gdf a = Ok (fig, tc) ->
  center (mapbox (layout fig)) = c /\ zoom (mapbox (layout fig)) = z.
Proof.
  intros Hc Hz. unfold build_figure. rewrite Hc, Hz.
  unfold mbind, result_bind. simpl.
  destruct (truthy_list (arg_text a)).
  - destruct (hover_text gdf _); simpl; [|discriminate].
    intros [= <- _]. auto.
  - simpl. intros [= <- _]. auto.
Qed.

Lemma iplot_camera (tok : option string) (gdf : GeoDataFrame) (z : Q)
    (c : Center) (kw : animate_kwargs) (fig : Figure) :
  iplot tok gdf z c kw = Ok fig ->
  center (mapbox (layout fig)) = c /\ zoom (mapbox (layout fig)) = z.
Proof.
  unfold iplot. intros H. apply bind_Ok in H. destruct H as [[f tc] [H1 H2]].
  injection H2 as <-. simpl.
  eapply build_figure_camera; [| |exact H1]; reflexivity.
Qed.

Lemma group_figs_inv (tok : option string) (groups : list (Z * GeoDataFrame))
    (by_ : string) (z : Q) (c : Center) (kw : animate_kwargs)
    (figs : list (Z * Figure)) :
  group_figs tok groups by_ z c kw = Ok figs ->
  map fst figs = map fst groups /\
  Forall (fun g => center (mapbox (layout (snd g))) = c /\
                   zoom (mapbox (layout (snd g))) = z) figs.
Proof.
  unfold group_figs. revert figs.
  induction groups as [|g gs IH]; simpl; intros figs H.
  - injection H as <-. split; [reflexivity | constructor].
  - unfold bind in H at 1.
    destruct (iplot tok (drop (snd g) by_) z c kw ≫= _) as [p|] eqn:E;
      [|discriminate].
    apply bind_Ok in E. destruct E as [fig [Hfig Hp]]. injection Hp as <-.
    unfold bind in H at 1.
    destruct (mapM _ gs) as [ps|] eqn:Egs; [|discriminate].
    injection H as <-. destruct (IH ps eq_refl) as [IH1 IH2]. split.
    + simpl. now rewrite IH1.
    + constructor; [|exact IH2]. simpl. eapply iplot_camera, Hfig.
Qed.

Lemma animate_inv (tok : option string) (df : GeoDataFrame) (by_ : string)
    (fig : option Figure) (kw : animate_kwargs) (out : Figure) :
  animate tok df by_ fig kw = Ok out ->
  exists z c groups figs,
    get_auto_zoom df = Ok z /\ get_auto_center df = Ok c /\
    groupby df by_ = Ok groups /\
    group_figs tok groups by_ z c kw = Ok figs /\
    frames out = map frame_of figs /\
    sliders (layout out) = [mk_sliders (by_ ++ ": ") 300 (map step_of figs)].
Proof.
  unfold animate. intros H.
  apply bind_Ok in H. destruct H as [groups [Hg H]].
  apply bind_Ok in H. destruct H as [z [Hz H]].
  apply bind_Ok in H. destruct H as [c [Hc H]].
  apply bind_Ok in H. destruct H as [figs [Hf H]].
  exists z, c, groups, figs.
  destruct (match fig with Some f => Some f | None => _ end);
    [|discriminate].
  injection H as <-. simpl. auto 10.
Qed.



End AnimateFacts.

Module SequencerFacts.
Import Py Geoplotting Spec GroupFacts AnimateFacts.

Lemma groupby_keys (df : GeoDataFrame) (by_ : string)
    (groups : list (Z * GeoDataFrame)) :
  groupby df by_ = Ok groups ->
  map fst groups = group_keys (group_rows by_ (rows df)).
Proof.
  unfold groupby. destruct (has_column df by_); [|discriminate].
  intros [= <-]. rewrite map_map. reflexivity.
Qed.

(** C1, as amended: the Frames and the slider steps come in strictly
    ascending order of the grouping key, one per distinct key value of the
    Feature Set. *)
Theorem animate_groups_ascending (tok : option string) (df : GeoDataFrame)
    (by_ : string) (fig : option Figure) (kw : animate_kwargs)
    (out : Figure) :
  animate tok df by_ fig kw = Ok out ->
  exists keys,
    map frame_name (frames out) = map str keys /\
    map label (flat_map steps (sliders (layout out))) = map str keys /\
    StronglySorted Z.lt keys /\
    forall k, In k keys <-> In k (key_values by_ (rows df)).
Proof.
  intros H. apply animate_inv in H.
  destruct H as (z & c & groups & figs & _ & _ & Hg & Hf & Hfr & Hs).
  apply group_figs_inv in Hf. destruct Hf as [Hk _].
  apply groupby_keys in Hg. rewrite Hg in Hk.
  exists (map fst figs). rewrite Hfr, Hs. simpl. rewrite app_nil_r, !map_map.
  split; [reflexivity|]. split; [reflexivity|].
  rewrite Hk. apply group_rows_keys.
Qed.

(** Key values [2000, 2001, 2000] give the Frames 2000, 2001. *)
Lemma animate_groups_ascending_witness :
  let df := mk_gdf ["year"] [year_row 2000 0; year_row 2001 1; year_row 2000 2] in
  exists out,
    animate None df "year" None plain_kwargs = Ok out /\
    map frame_name (frames out) = ["2000"; "2001"] /\
    exists keys, map frame_name (frames out) = map str keys /\
                 StronglySorted Z.lt keys.
Proof.
  intros df. eexists. split; [vm_compute; reflexivity|].
  split; [reflexivity|].
  destruct (animate_groups_ascending None df "year" None plain_kwargs _
              ltac:(vm_compute; reflexivity)) as (keys & Hk & _ & Hs & _).
  exists keys. split; [exact Hk | exact Hs].
Defined.

(** C1 as stated fails on the key values [2001, 2000, 2001]: first seen
    order is 2001, 2000, while the Frames and the steps come out as 2000,
    2001. *)
Lemma animate_order_is_not_first_seen :
  let df := mk_gdf ["year"] [year_row 2001 0; year_row 2000 1; year_row 2001 2] in
  key_values "year" (rows df) = [2001; 2000; 2001]%Z /\
  map str (first_seen (key_values "year" (rows df))) = ["2001"; "2000"] /\
  exists out,
    animate None df "year" None plain_kwargs = Ok out /\
    map frame_name (frames out) = ["2000"; "2001"] /\
    map label (flat_map steps (sliders (layout out))) = ["2000"; "2001"] /\
    map frame_name (frames out)
      <> map str (first_seen (key_values "year" (rows df))).
Proof.
  intros df. split; [reflexivity|]. split; [reflexivity|].
  eexists. split; [vm_compute; reflexivity|].
  split; [reflexivity|]. split; [reflexivity|]. discriminate.
Qed.

End SequencerFacts.

Module EntryFacts.
Import Py Geoplotting Spec GeoNotions AnimateFacts.

Lemma get_auto_zoom_empty (gdf : GeoDataFrame) :
  rows gdf = [] -> get_auto_zoom gdf = Raise EmptyInputError.
Proof.
  intros H. unfold get_auto_zoom, centroid_y, centroid_x. now rewrite H.
Qed.

Lemma get_auto_center_empty (gdf : GeoDataFrame) :
  rows gdf = [] -> get_auto_center gdf = Raise EmptyInputError.
Proof.
  intros H. unfold get_auto_center, total_bounds. now rewrite H.
Qed.

Lemma get_auto_zoom_nonempty (gdf : GeoDataFrame) :
  rows gdf <> [] -> exists z, get_auto_zoom gdf = Ok z.
Proof.
  intros H. unfold get_auto_zoom, centroid_y, centroid_x.
  destruct (rows gdf) as [|f fs]; [congruence|]. simpl. eauto.
Qed.

Lemma get_auto_center_nonempty (gdf : GeoDataFrame) :
  rows gdf <> [] -> exists c, get_auto_center gdf = Ok c.
Proof.
  intros H. unfold get_auto_center, total_bounds, bbox_of.
  destruct (rows gdf) as [|f fs]; [congruence|]. simpl. eauto.
Qed.

Lemma build_figure_empty (tok : option string) (gdf : GeoDataFrame)
    (a : plot_args) :
  rows gdf = [] -> arg_zoom a = None ->
  build_figure tok gdf a = Raise EmptyInputError.
Proof.
  intros He Hz. unfold build_figure. rewrite Hz.
  rewrite (get_auto_zoom_empty gdf He), (get_auto_center_empty gdf He).
  destruct (arg_center a); reflexivity.
Qed.

Lemma missing_column_present (gdf : GeoDataFrame) (cols : list string) :
  (forall x, In x cols -> has_column gdf x = true) ->
  missing_column gdf cols = None.
Proof.
  induction cols as [|c cols IH]; simpl; intros H; [reflexivity|].
  rewrite (H c (or_introl eq_refl)). apply IH. intros x Hx. apply H. now right.
Qed.

(** C3, as amended: on the empty Feature Set the auto zoom raises the
    empty-input error; the Scene Assembler raises that error, and returns
    no figure, whenever the caller leaves the zoom to it; the Animation
    Sequencer raises it for every grouping attribute of the frame; and when
    the caller gives both center and zoom, sets no animation key and names
    only text columns of the frame, the Scene Assembler returns a figure
    with that camera, one trace without markers, no layers and no frames. *)
Theorem empty_feature_set_raises (tok : option string) (gdf : GeoDataFrame) :
  rows gdf = [] ->
  get_auto_zoom gdf = Raise EmptyInputError /\
  (forall a, arg_zoom a = None ->
     plot_markers_with_mapbox tok gdf a = Raise EmptyInputError) /\
  (forall by_ fig kw, has_column gdf by_ = true ->
     animate tok gdf by_ fig kw = Raise EmptyInputError) /\
  (forall a c z,
     arg_center a = Some c -> arg_zoom a = Some z ->
     truthy_str (arg_animate_by a) = false ->
     (forall cols x, arg_text a = Some cols -> In x cols ->
                     has_column gdf x = true) ->
     exists o tr,
       plot_markers_with_mapbox tok gdf a = Ok o /\
       data (fig_of o) = [tr] /\
       trace_lat tr = [] /\ trace_lon tr = [] /\
       layers (mapbox (layout (fig_of o))) = [] /\
       center (mapbox (layout (fig_of o))) = c /\
       zoom (mapbox (layout (fig_of o))) = z /\
       frames (fig_of o) = []).
Proof.
  intros He. split; [now apply get_auto_zoom_empty|]. split; [|split].
  - intros a Hz. unfold plot_markers_with_mapbox.
    now rewrite (build_figure_empty tok gdf a He Hz).
  - intros by_ fig kw Hby. unfold animate, groupby. rewrite Hby.
    unfold mbind, result_bind. simpl.
    now rewrite (get_auto_zoom_empty gdf He).
  - intros a c z Hc Hz Hby Htext.
    unfold plot_markers_with_mapbox, build_figure.
    rewrite Hc, Hz, Hby. unfold mbind, result_bind. cbn [bind].
    assert (Hlay : gdf_to_plotly_layers (shape_rows gdf) None
                     (mk_layer_kwargs (Some (arg_color a))
                        (Some (arg_opacity a))) = []).
    { unfold gdf_to_plotly_layers, to_json, shape_rows. simpl.
      now rewrite He. }
    assert (Hy : centroid_y gdf = []) by (unfold centroid_y; now rewrite He).
    assert (Hx : centroid_x gdf = []) by (unfold centroid_x; now rewrite He).
    destruct (arg_text a) as [cols|] eqn:Et.
    + destruct (truthy_list (Some cols)); cbn [bind default].
      * unfold hover_text, id.
        rewrite (missing_column_present gdf cols
                   (fun x Hx => Htext cols x eq_refl Hx)).
        cbn [bind]. rewrite Hlay, Hy, Hx.
        destruct (arg_return_fig a); eexists _, _;
          (split; [reflexivity|]); simpl; repeat split.
      * rewrite Hlay, Hy, Hx.
        destruct (arg_return_fig a); eexists _, _;
          (split; [reflexivity|]); simpl; repeat split.
    + cbn [truthy_list bind]. rewrite Hlay, Hy, Hx.
      destruct (arg_return_fig a); eexists _, _;
        (split; [reflexivity|]); simpl; repeat split.
Qed.

Lemma empty_feature_set_raises_witness :
  let gdf := mk_gdf ["year"] [] in
  get_auto_zoom gdf = Raise EmptyInputError /\
  plot_markers_with_mapbox None gdf default_args = Raise EmptyInputError /\
  animate None gdf "year" None plain_kwargs
    = Raise EmptyInputError /\
  exists o tr,
    plot_markers_with_mapbox None gdf
      (mk_args (Some ["year"]) (Some (mk_center 1 2)) (Some 5%Q) None
         "markers" "darkblue" "basic" None false (1 # 2) None) = Ok o /\
    data (fig_of o) = [tr] /\ trace_lat tr = [] /\
    layers (mapbox (layout (fig_of o))) = [].
Proof.
  intros gdf.
  destruct (empty_feature_set_raises None gdf eq_refl) as (Hz & Hp & Ha & Hs).
  split; [exact Hz|]. split; [|split].
  - apply Hp. reflexivity.
  - apply Ha. reflexivity.
  - destruct (Hs (mk_args (Some ["year"]) (Some (mk_center 1 2)) (Some 5%Q)
                    None "markers" "darkblue" "basic" None false (1 # 2) None)
                (mk_center 1 2) 5%Q eq_refl eq_refl eq_refl)
      as (o & tr & Ho & Hd & Hlat & _ & Hl & _).
    + intros cols x [= <-] [<- | []]. reflexivity.
    + exists o, tr. auto.
Defined.

(** C3 as stated fails when the caller gives both center and zoom: the
    Scene Assembler then returns a figure for the empty Feature Set, with
    one empty trace and no layers. *)
Lemma empty_feature_set_with_camera_renders :
  let a := mk_args None (Some (mk_center 0 0)) (Some 5%Q) None "markers"
             "darkblue" "basic" None true (1 # 2) None in
  exists fig,
    plot_markers_with_mapbox None (mk_gdf ["year"] []) a = Ok (Returned fig) /\
    map trace_lat (data fig) = [[]] /\
    layers (mapbox (layout fig)) = [] /\
    plot_markers_with_mapbox None (mk_gdf ["year"] []) a
      <> Raise EmptyInputError.
Proof.
  intros a. eexists. split; [vm_compute; reflexivity|].
  split; [reflexivity|]. split; [reflexivity|]. discriminate.
Qed.

(** C10, as amended: with a grouping key and no text columns, the render
    entry point raises the unbound-name error for [text_col] on every
    Feature Set it can frame, that is a non-empty one, or any one when the
    caller gives center and zoom. *)
Theorem animate_by_without_text_unbound (tok : option string)
    (gdf : GeoDataFrame) (a : plot_args) :
  rows gdf <> [] \/ (arg_center a <> None /\ arg_zoom a <> None) ->
  truthy_str (arg_animate_by a) = true ->
  truthy_list (arg_text a) = false ->
  plot_markers_with_mapbox tok gdf a = Raise (UnboundLocalError "text_col").
Proof.
  intros Hframe Hby Htext.
  unfold plot_markers_with_mapbox, build_figure. rewrite Hby, Htext.
  assert (Hc : exists c, match arg_center a with
                         | None => get_auto_center gdf
                         | Some c => Ok c
                         end = Ok c).
  { destruct (arg_center a) as [c|]; [eauto|].
    destruct Hframe as [Hne | [Hc _]]; [|congruence].
    now apply get_auto_center_nonempty. }
  assert (Hz : exists z, match arg_zoom a with
                         | None => get_auto_zoom gdf
                         | Some z => Ok z
                         end = Ok z).
  { destruct (arg_zoom a) as [z|]; [eauto|].
    destruct Hframe as [Hne | [_ Hz]]; [|congruence].
    now apply get_auto_zoom_nonempty. }
  destruct Hc as [c ->], Hz as [z ->]. reflexivity.
Qed.

Lemma animate_by_without_text_unbound_witness :
  plot_markers_with_mapbox None
    (mk_gdf ["year"] [year_row 2000 0;
                      year_row 2001 1])
    (mk_args None None None None "markers" "darkblue" "basic" None true
       (1 # 2) (Some "year"))
  = Raise (UnboundLocalError "text_col").
Proof.
  apply animate_by_without_text_unbound.
  - left. simpl. discriminate.
  - reflexivity.
  - reflexivity.
Defined.

(** C10 as stated fails on the empty Feature Set with the default zoom:
    the empty-input error of the auto framing is raised first. *)
Lemma animate_by_on_empty_set_raises_empty_input :
  let a := mk_args None None None None "markers" "darkblue" "basic" None true
             (1 # 2) (Some "year") in
  truthy_str (arg_animate_by a) = true /\
  truthy_list (arg_text a) = false /\
  plot_markers_with_mapbox None (mk_gdf ["year"] []) a
    = Raise EmptyInputError /\
  plot_markers_with_mapbox None (mk_gdf ["year"] []) a
    <> Raise (UnboundLocalError "text_col").
Proof.
  intros a. split; [reflexivity|]. split; [reflexivity|].
  split; [reflexivity | discriminate].
Qed.

End EntryFacts.

(** ** Further properties *)

Module TypeFacts.
Import Py Sql Spec SqlNotions SqlFacts.

Lemma forallb_false_ex {A} (f : A -> bool) (l : list A) :
  forallb f l = false -> exists x, In x l /\ f x = false.
Proof.
  induction l as [|a l IH]; simpl; [discriminate|].
  destruct (f a) eqn:E; simpl.
  - intros H. destruct (IH H) as [x [Hx Hf]]. eauto.
  - intros _. eauto.
Qed.

Lemma postgis_of_types_geoms (gdf : list geometry) :
  _geom_type_to_postgis gdf
  = postgis_of_types (map (fun g => Some (geom_type g)) gdf).
Proof.
  assert (H : forall name,
             all_geom_type gdf name
             = all_type_is (map (fun g => Some (geom_type g)) gdf) name).
  { intros name. unfold all_geom_type, all_type_is.
    induction gdf as [|g gs IH]; simpl; [reflexivity|]. now rewrite IH. }
  unfold _geom_type_to_postgis, postgis_of_types. now rewrite !H.
Qed.

Lemma all_type_is_spec (types : list (option string)) (name : string) :
  all_type_is types name = true <-> Forall (fun t => t = Some name) types.
Proof.
  unfold all_type_is. rewrite forallb_forall, Forall_forall.
  split; intros H t Ht.
  - apply list_elem_of_In, H in Ht. destruct t as [s|]; [|discriminate].
    apply String.eqb_eq in Ht. now subst.
  - apply list_elem_of_In, H in Ht. subst. apply String.eqb_refl.
Qed.

Lemma kind_name_inj (k k' : geom_kind) : kind_name k = kind_name k' -> k = k'.
Proof. intros H. apply kind_name_eqb. rewrite H. apply String.eqb_refl. Qed.

Lemma kind_of_type_name (k : geom_kind) :
  kind_of_type (Some (kind_name k)) = Some k.
Proof. now destruct k. Qed.

Lemma kind_of_type_Some (t : option string) (k : geom_kind) :
  kind_of_type t = Some k -> t = Some (kind_name k).
Proof.
  destruct t as [s|]; [|discriminate]. unfold kind_of_type.
  repeat match goal with
         | |- context [String.eqb s ?n] =>
             destruct (String.eqb_spec s n) as [-> | ?]
         end; intros [= <-]; reflexivity.
Qed.

Lemma kind_of_type_None (t : option string) :
  kind_of_type t = None -> forall k, t <> Some (kind_name k).
Proof.
  intros H k ->. rewrite kind_of_type_name in H. discriminate.
Qed.

(** No test of the chain passes: the result is the generic type. *)
Lemma postgis_of_types_none (types : list (option string)) :
  (forall k, all_type_is types (kind_name k) = false) ->
  postgis_of_types types = "GEOMETRY".
Proof.
  intros Hoff. unfold postgis_of_types.
  pose proof (Hoff Polygon) as H0. pose proof (Hoff MultiPolygon) as H3.
  pose proof (Hoff Point) as H4. pose proof (Hoff LineString) as H5.
  pose proof (Hoff MultiPoint) as H6.
  pose proof (Hoff GeometryCollection) as H7.
  pose proof (Hoff MultiLineString) as H8.
  simpl kind_name in *.
  rewrite H0, H3, H4, H5, H6, H7, H8. reflexivity.
Qed.

(** One test passes on a set that has features: the result is another
    name than the generic one. *)
Lemma postgis_of_types_one (t : option string) (ts : list (option string))
    (k : geom_kind) :
  all_type_is (t :: ts) (kind_name k) = true ->
  postgis_of_types (t :: ts) <> "GEOMETRY".
Proof.
  intros Hon.
  assert (Hoff : forall k', k <> k' ->
                   all_type_is (t :: ts) (kind_name k') = false).
  { intros k' Hne. apply not_true_is_false. intros Ht.
    apply all_type_is_spec in Hon, Ht.
    apply Forall_inv in Hon. apply Forall_inv in Ht.
    apply Hne, kind_name_inj. congruence. }
  unfold postgis_of_types.
  destruct k; simpl kind_name in Hon;
    resolve_off Hoff Polygon; resolve_off Hoff MultiPolygon;
    resolve_off Hoff Point; resolve_off Hoff LineString;
    resolve_off Hoff MultiPoint; resolve_off Hoff GeometryCollection;
    resolve_off Hoff MultiLineString; rewrite Hon; discriminate.
Qed.

(** X14: over the [geom_type] values themselves the resolved type is the
    generic GEOMETRY exactly when two features have different values or
    some feature has a value that is none of the seven tested names (a
    LinearRing, a null geometry); never for the empty set.  On geometries
    of the seven kinds this is [_geom_type_to_postgis]. *)
Theorem geom_type_to_postgis_generic_iff :
  (forall gdf : list geometry,
     _geom_type_to_postgis gdf
     = postgis_of_types (map (fun g => Some (geom_type g)) gdf)) /\
  forall types : list (option string),
    postgis_of_types types = "GEOMETRY" <->
    (exists t1 t2, In t1 types /\ In t2 types /\ t1 <> t2) \/
    (exists t, In t types /\ forall k, t <> Some (kind_name k)).
Proof.
  split; [exact postgis_of_types_geoms|]. intros types. split.
  - destruct types as [|t ts]; [discriminate|]. intros Hr.
    destruct (kind_of_type t) as [k|] eqn:Ek.
    + apply kind_of_type_Some in Ek.
      destruct (all_type_is (t :: ts) (kind_name k)) eqn:E.
      * exfalso. exact (postgis_of_types_one t ts k E Hr).
      * left. apply forallb_false_ex in E. destruct E as [x [Hx Hf]].
        exists x, t. split; [exact Hx|]. split; [now left|].
        intros ->. subst t. rewrite String.eqb_refl in Hf. discriminate.
    + right. exists t. split; [now left|]. now apply kind_of_type_None.
  - intros [(t1 & t2 & H1 & H2 & Hne) | (t & Ht & Hno)];
      apply postgis_of_types_none; intros k; apply not_true_is_false;
      intros Hall; apply all_type_is_spec in Hall;
      rewrite Forall_forall in Hall.
    + apply list_elem_of_In in H1, H2. apply Hall in H1, H2. congruence.
    + apply list_elem_of_In in Ht. apply Hall in Ht. exact (Hno k Ht).
Qed.

(** A set of LinearRings, a set with a null geometry, a set of Points and
    the empty set. *)
Example postgis_of_types_samples :
  postgis_of_types [Some "LinearRing"; Some "LinearRing"] = "GEOMETRY" /\
  postgis_of_types [Some "Point"; None] = "GEOMETRY" /\
  postgis_of_types [Some "Point"; Some "Point"] = "POINT" /\
  postgis_of_types [] = "POLYGON".
Proof. repeat split. Qed.

Lemma all_geom_type_kinds (gdf gdf' : list geometry) (K : geom_kind) :
  (forall k, (exists g, In g gdf /\ kind g = k) <->
             (exists g, In g gdf' /\ kind g = k)) ->
  all_geom_type gdf (kind_name K) = all_geom_type gdf' (kind_name K).
Proof.
  intros H. apply Bool.eq_iff_eq_true. rewrite !all_geom_type_spec.
  rewrite !Forall_forall. split; intros Hall g Hg.
  - apply list_elem_of_In in Hg.
    destruct (proj2 (H (kind g)) (ex_intro _ g (conj Hg eq_refl)))
      as [g' [Hg' Hk]].
    rewrite <- Hk. apply Hall. now apply list_elem_of_In.
  - apply list_elem_of_In in Hg.
    destruct (proj1 (H (kind g)) (ex_intro _ g (conj Hg eq_refl)))
      as [g' [Hg' Hk]].
    rewrite <- Hk. apply Hall. now apply list_elem_of_In.
Qed.

(** X15: the resolved type depends only on which geometry kinds occur:
    two Feature Sets with the same kinds, in any order and any number,
    resolve to the same type. *)
Theorem geom_type_to_postgis_by_kinds (gdf gdf' : list geometry) :
  (forall k, (exists g, In g gdf /\ kind g = k) <->
             (exists g, In g gdf' /\ kind g = k)) ->
  _geom_type_to_postgis gdf = _geom_type_to_postgis gdf'.
Proof.
  intros H. unfold _geom_type_to_postgis.
  pose proof (all_geom_type_kinds gdf gdf' Polygon H) as H0.
  pose proof (all_geom_type_kinds gdf gdf' MultiPolygon H) as H1.
  pose proof (all_geom_type_kinds gdf gdf' Point H) as H2.
  pose proof (all_geom_type_kinds gdf gdf' LineString H) as H3.
  pose proof (all_geom_type_kinds gdf gdf' MultiPoint H) as H4.
  pose proof (all_geom_type_kinds gdf gdf' GeometryCollection H) as H5.
  pose proof (all_geom_type_kinds gdf gdf' MultiLineString H) as H6.
  simpl kind_name in *.
  rewrite H0, H1, H2, H3, H4, H5, H6. reflexivity.
Qed.

Lemma geom_type_to_postgis_by_kinds_witness :
  _geom_type_to_postgis [mk_point 0 0; mk_box 0 0 1 1; mk_point 2 2]
  = _geom_type_to_postgis [mk_box 3 3 4 4; mk_point 5 5].
Proof.
  apply geom_type_to_postgis_by_kinds. intros k. split.
  - intros [g [[<- | [<- | [<- | []]]] <-]]; simpl; eauto 6.
  - intros [g [[<- | [<- | []]] <-]]; simpl; eauto 6.
Defined.

End TypeFacts.

Module ReadFacts.
Import Py Sql Spec SqlNotions SqlFrameFacts.

Lemma load_geom_decode (loads : string -> bool -> option geometry)
    (hex : bool) (x : cell) :
  load_geom loads hex x = match decode loads hex x with
                          | Some g => Ok g
                          | None => Raise WKBReadingError
                          end.
Proof. reflexivity. Qed.

Lemma mapM_load_geom_Ok (loads : string -> bool -> option geometry)
    (hex : bool) (col : list cell) (geoms : list geometry) :
  mapM (load_geom loads hex) col = Ok geoms <->
  map (decode loads hex) col = map Some geoms.
Proof.
  revert geoms. induction col as [|x col IH]; intros geoms; simpl.
  - split.
    + intros [= <-]. reflexivity.
    + destruct geoms; [reflexivity | discriminate].
  - rewrite load_geom_decode.
    destruct (decode loads hex x) as [g|]; simpl.
    + destruct (mapM (load_geom loads hex) col) as [gs|] eqn:E; simpl.
      * split.
        -- intros [= <-]. simpl. f_equal. now apply IH.
        -- destruct geoms as [|g' geoms]; [discriminate|]. simpl.
           intros [= -> Hm]. apply IH in Hm. congruence.
      * split; [discriminate|].
        destruct geoms as [|g' geoms]; [discriminate|]. simpl.
        intros [= -> Hm]. apply IH in Hm. discriminate.
    + split; [discriminate|]. destruct geoms; discriminate.
Qed.

Lemma mapM_load_geom_bad (loads : string -> bool -> option geometry)
    (hex : bool) (col : list cell) (x : cell) :
  In x col -> decode loads hex x = None ->
  mapM (load_geom loads hex) col = Raise WKBReadingError.
Proof.
  intros Hin Hx.
  destruct (mapM_load_geom loads hex col) as [[gs Hgs] | Hr]; [|exact Hr].
  apply mapM_load_geom_Ok in Hgs.
  assert (Hs : In (decode loads hex x) (map Some gs))
    by (rewrite <- Hgs; now apply in_map).
  rewrite Hx in Hs. apply in_map_iff in Hs. destruct Hs as [g [Hg _]].
  discriminate.
Qed.

Lemma mapM_as_geom (geoms : list geometry) :
  mapM as_geom (map CGeom geoms) = Ok geoms.
Proof.
  induction geoms as [|g gs IH]; simpl; [reflexivity|]. now rewrite IH.
Qed.

Lemma get_column_has (df : DataFrame) (c : string) (col : list cell) :
  get_column df c = Ok col -> has_column df c = true.
Proof.
  intros H. apply has_column_In.
  induction df as [|[n v] df IH]; simpl in *; [discriminate|].
  destruct (String.eqb_spec n c); auto.
Qed.

Lemma get_set_column (df : DataFrame) (c : string) (v : list cell) :
  get_column (set_column df c v) c = Ok v.
Proof.
  induction df as [|[n x] df IH]; simpl.
  - now rewrite String.eqb_refl.
  - destruct (String.eqb n c) eqn:E; simpl; rewrite E; auto.
Qed.

Lemma get_set_column_other (df : DataFrame) (c c' : string) (v : list cell) :
  c' <> c -> get_column (set_column df c v) c' = get_column df c'.
Proof.
  intros Hne. induction df as [|[n x] df IH]; simpl.
  - destruct (String.eqb_spec c c'); [congruence | reflexivity].
  - destruct (String.eqb_spec n c) as [-> | Hn]; simpl.
    + destruct (String.eqb_spec c c'); [congruence | reflexivity].
    + now rewrite IH.
Qed.

Lemma set_column_names (df : DataFrame) (c : string) (v : list cell) :
  has_column df c = true ->
  map fst (set_column df c v) = map fst df.
Proof.
  unfold has_column. induction df as [|[n x] df IH]; simpl; [discriminate|].
  destruct (String.eqb_spec n c) as [-> | Hn]; simpl.
  - reflexivity.
  - destruct (String.eqb_spec c n); [congruence|]. simpl.
    intros H. now rewrite IH.
Qed.

Lemma read_postgis_inv (loads : string -> bool -> option geometry)
    (df : DataFrame) (geom_col : string) (crs : option crs_t) (hex : bool)
    (gdf : GeoDataFrame) :
  read_postgis loads df geom_col crs hex = Ok gdf ->
  exists col geoms,
    get_column df geom_col = Ok col /\
    mapM (load_geom loads hex) col = Ok geoms /\
    gdf = mk_gdf (set_column df geom_col (map CGeom geoms)) geom_col
            (crs_of_read crs geoms).
Proof.
  unfold read_postgis. destruct (has_column df geom_col); [|discriminate].
  simpl. unfold mbind, result_bind.
  destruct (get_column df geom_col) as [col|] eqn:Hcol; simpl;
    [|discriminate].
  destruct (mapM (load_geom loads hex) col) as [geoms|] eqn:Hm; simpl;
    [|discriminate].
  intros [= <-]. exists col, geoms. split; [reflexivity|].
  split; [exact Hm | reflexivity].
Qed.

(** X16: a read that returns has decoded every cell of the geometry
    column: the frame keeps the column names in order, names [geom_col] as
    its geometry column, holds there the decoded geometries, one per cell
    in order, and leaves every other column as the query returned it. *)
Theorem read_postgis_frame (loads : string -> bool -> option geometry)
    (df : DataFrame) (geom_col : string) (crs : option crs_t) (hex : bool)
    (gdf : GeoDataFrame) :
  read_postgis loads df geom_col crs hex = Ok gdf ->
  exists col geoms,
    get_column df geom_col = Ok col /\
    map (decode loads hex) col = map Some geoms /\
    geometry_name gdf = geom_col /\
    map fst (columns gdf) = map fst df /\
    geometry_of gdf = Ok geoms /\
    forall c, c <> geom_col -> get_column (columns gdf) c = get_column df c.
Proof.
  intros H. apply read_postgis_inv in H.
  destruct H as (col & geoms & Hcol & Hm & ->).
  exists col, geoms. simpl. split; [exact Hcol|].
  split; [now apply mapM_load_geom_Ok|]. split; [reflexivity|].
  split; [apply set_column_names; eapply get_column_has, Hcol|]. split.
  - unfold geometry_of. simpl. rewrite get_set_column. apply mapM_as_geom.
  - intros c Hc. now apply get_set_column_other.
Qed.

Lemma read_postgis_frame_witness :
  exists gdf geoms,
    read_postgis loads_two sample_result "geom" None true = Ok gdf /\
    geometry_of gdf = Ok geoms /\ length geoms = 2 /\
    map fst (columns gdf) = ["kind"; "geom"] /\
    get_column (columns gdf) "kind" = Ok [CInt 1; CInt 2].
Proof.
  eexists.
  destruct (read_postgis_frame loads_two sample_result "geom" None true _
              ltac:(vm_compute; reflexivity))
    as (col & geoms & Hcol & Hdec & _ & Hnames & Hgeo & Hother).
  exists geoms. split; [vm_compute; reflexivity|].
  split; [exact Hgeo|]. split.
  - vm_compute in Hcol. injection Hcol as <-.
    apply (f_equal (@length _)) in Hdec. rewrite !length_map in Hdec.
    symmetry. exact Hdec.
  - split; [exact Hnames|]. rewrite Hother; [reflexivity | discriminate].
Defined.

(** X17: one cell the decoder rejects fails the whole read with the
    decoder's error; no frame is returned. *)
Theorem read_postgis_bad_cell (loads : string -> bool -> option geometry)
    (df : DataFrame) (geom_col : string) (crs : option crs_t) (hex : bool)
    (col : list cell) (x : cell) :
  get_column df geom_col = Ok col -> In x col ->
  decode loads hex x = None ->
  read_postgis loads df geom_col crs hex = Raise WKBReadingError.
Proof.
  intros Hcol Hin Hx. unfold read_postgis.
  rewrite (get_column_has df geom_col col Hcol). simpl.
  unfold mbind, result_bind. rewrite Hcol. simpl.
  now rewrite (mapM_load_geom_bad loads hex col x Hin Hx).
Qed.

Lemma read_postgis_bad_cell_witness :
  read_postgis loads_two
    [("geom", [CStr "0101"; CStr "zz"; CStr "0102"])] "geom" None true
  = Raise WKBReadingError.
Proof.
  apply (read_postgis_bad_cell loads_two _ "geom" None true
           [CStr "0101"; CStr "zz"; CStr "0102"] (CStr "zz")).
  - reflexivity.
  - simpl. auto.
  - reflexivity.
Defined.

End ReadFacts.

Module WriteFacts.
Import Py Sql Spec SqlNotions StoreFacts.

Section Write.

Variable crs_to_srid : option crs_t -> result Z.
Variable to_sql :
  GeoDataFrame -> string -> gmap string sqltype -> option string -> result unit.

Lemma fresh_not_in (h : gmap positive obj) (l : positive) (v : obj) :
  h !! l = Some v -> fresh (dom h) <> l.
Proof.
  intros H E. apply (is_fresh (dom h)). rewrite E. apply elem_of_dom. eauto.
Qed.

Lemma bindM_ok {A B} (c : M A) (k : A -> M B) (h h' : gmap positive obj)
    (a : A) :
  c h = (h', Ok a) -> bindM c k h = k a h'.
Proof. intros H. unfold bindM. now rewrite H. Qed.

Lemma bindM_raise {A B} (c : M A) (k : A -> M B) (h h' : gmap positive obj)
    (e : exn) :
  c h = (h', Raise e) -> bindM c k h = (h', Raise e).
Proof. intros H. unfold bindM. now rewrite H. Qed.

Lemma write_postgis_run (df : positive) (name : string) (kwargs : kwargs_t)
    (h : gmap positive obj) (fr : GeoDataFrame) (geoms : list geometry)
    (srid : Z) (m : gmap string sqltype) :
  h !! df = Some (OFrame fr) ->
  geometry_of fr = Ok geoms ->
  crs_to_srid (crs fr) = Ok srid ->
  dtype_of h kwargs = Some m ->
  let dt := setdefault_map m (geometry_name fr)
              (Geometry (_geom_type_to_postgis geoms) srid) in
  let r := write_postgis crs_to_srid to_sql df name kwargs h in
  r.2 = to_sql (wkt_frame fr geoms srid) name dt (if_exists kwargs) /\
  forall d, dtype kwargs = Some d -> r.1 !! d = Some (ODict dt).
Proof.
  intros Hdf Hg Hs Hd dt r. subst r. unfold write_postgis.
  rewrite (bindM_ok _ _ h h fr) by (unfold get_frame; now rewrite Hdf).
  rewrite (bindM_ok _ _ h (<[fresh (dom h) := OFrame fr]> h) (fresh (dom h)))
    by reflexivity.
  set (t := fresh (dom h)). set (h1 := <[t := OFrame fr]> h).
  assert (Ht : forall l v, h !! l = Some v -> t <> l)
    by (intros l v Hl; now apply (fresh_not_in h l v)).
  rewrite (bindM_ok _ _ h1 h1 fr)
    by (unfold get_frame, h1; now rewrite lookup_insert_eq).
  rewrite (bindM_ok _ _ h1 h1 geoms) by (unfold lift; now rewrite Hg).
  rewrite (bindM_ok _ _ h1 h1 srid) by (unfold lift; now rewrite Hs).
  fold (wkt_frame fr geoms srid).
  set (ty := Geometry (_geom_type_to_postgis geoms) srid) in *.
  unfold dtype_of in Hd.
  destruct (dtype kwargs) as [d|] eqn:Ed.
  - destruct (h !! d) as [[f|m']|] eqn:Hhd; try discriminate.
    injection Hd as ->.
    assert (Htd : t <> d) by (eapply Ht; eassumption).
    assert (Hh1d : h1 !! d = Some (ODict m))
      by (unfold h1; now rewrite lookup_insert_ne).
    rewrite (bindM_ok _ _ h1 h1 d) by reflexivity.
    set (h2 := match m !! geometry_name fr with
               | Some _ => h1
               | None => <[d := ODict (<[geometry_name fr := ty]> m)]> h1
               end).
    assert (Hh2d : h2 !! d = Some (ODict dt)).
    { unfold h2, dt, setdefault_map. fold ty.
      destruct (m !! geometry_name fr); [exact Hh1d|].
      apply lookup_insert_eq. }
    rewrite (bindM_ok _ _ h1 h2 tt).
    2:{ unfold dict_setdefault, h2. rewrite Hh1d.
        now destruct (m !! geometry_name fr). }
    rewrite (bindM_ok _ _ h2 h2 geoms) by (unfold lift; now rewrite Hg).
    rewrite (bindM_ok _ _ h2 (<[t := OFrame (wkt_frame fr geoms srid)]> h2) tt)
      by reflexivity.
    set (h3 := <[t := OFrame (wkt_frame fr geoms srid)]> h2).
    rewrite (bindM_ok _ _ h3 h3 (wkt_frame fr geoms srid))
      by (unfold get_frame, h3; now rewrite lookup_insert_eq).
    rewrite (bindM_ok _ _ h3 h3 dt)
      by (unfold get_dict, h3; rewrite lookup_insert_ne by exact Htd;
          now rewrite Hh2d).
    unfold lift. cbn [fst snd]. split; [reflexivity|].
    intros d' [= <-]. unfold h3. now rewrite lookup_insert_ne.
  - injection Hd as <-.
    rewrite (bindM_ok _ _ h1 (<[fresh (dom h1) := ODict ∅]> h1)
               (fresh (dom h1))) by reflexivity.
    set (d := fresh (dom h1)). set (h1' := <[d := ODict ∅]> h1).
    assert (Htd : t <> d).
    { intros E. apply (is_fresh (dom h1)). fold d.
      rewrite <- E. apply elem_of_dom. unfold h1.
      rewrite lookup_insert_eq. eauto. }
    set (h2 := <[d := ODict (<[geometry_name fr := ty]> ∅)]> h1').
    rewrite (bindM_ok _ _ h1' h2 tt).
    2:{ unfold dict_setdefault, h1'. rewrite lookup_insert_eq.
        now rewrite lookup_empty. }
    rewrite (bindM_ok _ _ h2 h2 geoms) by (unfold lift; now rewrite Hg).
    rewrite (bindM_ok _ _ h2 (<[t := OFrame (wkt_frame fr geoms srid)]> h2) tt)
      by reflexivity.
    set (h3 := <[t := OFrame (wkt_frame fr geoms srid)]> h2).
    rewrite (bindM_ok _ _ h3 h3 (wkt_frame fr geoms srid))
      by (unfold get_frame, h3; now rewrite lookup_insert_eq).
    rewrite (bindM_ok _ _ h3 h3 dt).
    2:{ unfold get_dict, h3. rewrite lookup_insert_ne by exact Htd.
        unfold h2. rewrite lookup_insert_eq. reflexivity. }
    unfold lift. cbn [fst snd]. split; [reflexivity | discriminate].
Qed.

(** X19: when the frame has its geometries and the SRID resolves, the
    database receives the copy with every geometry as a WKT element
    carrying that SRID and the other columns as they are; the type of the
    geometry column is the resolved PostGIS type, unless the caller's
    [dtype] already has an entry for it, which is kept; and the outcome of
    the call is the outcome of the database write. *)
Theorem write_postgis_sends (df : positive) (name : string)
    (kwargs : kwargs_t) (h : gmap positive obj) (fr : GeoDataFrame)
    (geoms : list geometry) (srid : Z) (m : gmap string sqltype) :
  h !! df = Some (OFrame fr) ->
  geometry_of fr = Ok geoms ->
  crs_to_srid (crs fr) = Ok srid ->
  dtype_of h kwargs = Some m ->
  (write_postgis crs_to_srid to_sql df name kwargs h).2
  = to_sql (wkt_frame fr geoms srid) name
      (setdefault_map m (geometry_name fr)
         (Geometry (_geom_type_to_postgis geoms) srid))
      (if_exists kwargs).
Proof.
  intros Hdf Hg Hs Hd.
  apply (write_postgis_run df name kwargs h fr geoms srid m Hdf Hg Hs Hd).
Qed.

(** X20: the call writes into the caller's [dtype] dictionary: after it,
    the dictionary holds the type of the geometry column, the caller's own
    entry when there was one, else the resolved PostGIS type and SRID. *)
Theorem write_postgis_sets_dtype (df d : positive) (name : string)
    (kwargs : kwargs_t) (h : gmap positive obj) (fr : GeoDataFrame)
    (geoms : list geometry) (srid : Z) (m : gmap string sqltype) :
  h !! df = Some (OFrame fr) ->
  geometry_of fr = Ok geoms ->
  crs_to_srid (crs fr) = Ok srid ->
  dtype kwargs = Some d -> h !! d = Some (ODict m) ->
  (write_postgis crs_to_srid to_sql df name kwargs h).1 !! d
  = Some (ODict (setdefault_map m (geometry_name fr)
                   (Geometry (_geom_type_to_postgis geoms) srid))).
Proof.
  intros Hdf Hg Hs Hd Hm.
  assert (Hdt : dtype_of h kwargs = Some m)
    by (unfold dtype_of; now rewrite Hd, Hm).
  apply (write_postgis_run df name kwargs h fr geoms srid m Hdf Hg Hs Hdt).
  exact Hd.
Qed.

Lemma keeps_dict_setdefault_other (l : positive) (v : obj) (d : positive)
    (k : string) (x : sqltype) :
  d <> l -> keeps l v (dict_setdefault d k x) (fun _ => True).
Proof.
  intros Hne h H. unfold dict_setdefault.
  destruct (h !! d) as [[f|m]|] eqn:Hd; simpl; auto.
  destruct (m !! k); simpl; auto.
  split; [|trivial]. now rewrite lookup_insert_ne.
Qed.

(** X21: of the objects the caller holds, the call can change only the
    [dtype] dictionary passed in [kwargs]: every other object of the store
    is the same after the call, whether it returns or raises. *)
Theorem write_postgis_touches_only_dtype (df : positive) (name : string)
    (kwargs : kwargs_t) (h : gmap positive obj) (l : positive) (v : obj) :
  h !! l = Some v -> dtype kwargs <> Some l ->
  (write_postgis crs_to_srid to_sql df name kwargs h).1 !! l = Some v.
Proof.
  intros H Hd.
  cut (keeps l v (write_postgis crs_to_srid to_sql df name kwargs)
         (fun _ => True)).
  { intros Hk. exact (proj1 (Hk h H)). }
  unfold write_postgis.
  eapply keeps_bind; [apply keeps_get_frame | intros f _].
  eapply keeps_bind; [apply keeps_alloc | intros temp_df Htemp].
  eapply keeps_bind; [apply keeps_get_frame | intros tmp _].
  eapply keeps_bind; [apply keeps_lift | intros geoms _].
  eapply keeps_bind; [apply keeps_lift | intros srid _].
  eapply keeps_bind with (Q := fun d => d <> l).
  { destruct (dtype kwargs) as [d|].
    - intros h0 H0. split; [exact H0|]. simpl. intros a [= <-] ->.
      now apply Hd.
    - apply keeps_alloc. }
  intros d Hdl.
  eapply keeps_bind;
    [apply keeps_dict_setdefault_other; exact Hdl | intros _ _].
  eapply keeps_bind; [apply keeps_lift | intros geom _].
  eapply keeps_bind; [apply keeps_put_frame; exact Htemp | intros _ _].
  eapply keeps_bind; [apply keeps_get_frame | intros tmp' _].
  eapply keeps_bind; [apply keeps_get_dict | intros dt _].
  apply keeps_lift.
Qed.

(** X22: when the SRID of the frame's CRS cannot be resolved, the call
    raises that error, and every object of the store, the [dtype]
    dictionary included, is as before. *)
Theorem write_postgis_srid_error (df : positive) (name : string)
    (kwargs : kwargs_t) (h : gmap positive obj) (fr : GeoDataFrame)
    (geoms : list geometry) (e : exn) :
  h !! df = Some (OFrame fr) ->
  geometry_of fr = Ok geoms ->
  crs_to_srid (crs fr) = Raise e ->
  let r := write_postgis crs_to_srid to_sql df name kwargs h in
  r.2 = Raise e /\ forall l v, h !! l = Some v -> r.1 !! l = Some v.
Proof.
  intros Hdf Hg Hs r. subst r. unfold write_postgis.
  rewrite (bindM_ok _ _ h h fr) by (unfold get_frame; now rewrite Hdf).
  rewrite (bindM_ok _ _ h (<[fresh (dom h) := OFrame fr]> h) (fresh (dom h)))
    by reflexivity.
  set (h1 := <[fresh (dom h) := OFrame fr]> h).
  rewrite (bindM_ok _ _ h1 h1 fr)
    by (unfold get_frame, h1; now rewrite lookup_insert_eq).
  rewrite (bindM_ok _ _ h1 h1 geoms) by (unfold lift; now rewrite Hg).
  rewrite (bindM_raise _ _ h1 h1 e) by (unfold lift; now rewrite Hs).
  cbn [fst snd]. split; [reflexivity|].
  intros l v Hl. unfold h1. rewrite lookup_insert_ne; [exact Hl|].
  now apply (fresh_not_in h l v).
Qed.

End Write.

Lemma write_postgis_sends_witness :
  (write_postgis srid_4326 to_sql_points 1%positive "cities"
     (mk_kwargs (Some 2%positive) None) caller_store).2 = Ok tt.
Proof.
  rewrite (write_postgis_sends srid_4326 to_sql_points 1%positive "cities"
             (mk_kwargs (Some 2%positive) None) caller_store two_points
             [mk_point 0 0; mk_point 1 2] 4326 ∅);
    vm_compute; reflexivity.
Defined.

Lemma write_postgis_sets_dtype_witness :
  (write_postgis srid_4326 to_sql_ok 1%positive "cities"
     (mk_kwargs (Some 2%positive) None) caller_store).1 !! 2%positive
  = Some (ODict {[ "geometry" := Geometry "POINT" 4326 ]}) /\
  (write_postgis srid_4326 to_sql_ok 1%positive "cities"
     (mk_kwargs (Some 2%positive) None) typed_store).1 !! 2%positive
  = Some (ODict {[ "geometry" := ColumnType "geography" ]}).
Proof.
  split.
  - rewrite (write_postgis_sets_dtype srid_4326 to_sql_ok 1%positive
               2%positive "cities" _ caller_store two_points
               [mk_point 0 0; mk_point 1 2] 4326 ∅);
      vm_compute; reflexivity.
  - rewrite (write_postgis_sets_dtype srid_4326 to_sql_ok 1%positive
               2%positive "cities" _ typed_store two_points
               [mk_point 0 0; mk_point 1 2] 4326
               {[ "geometry" := ColumnType "geography" ]});
      vm_compute; reflexivity.
Defined.

Lemma write_postgis_touches_only_dtype_witness :
  (write_postgis srid_4326 to_sql_ok 1%positive "cities"
     (mk_kwargs None None) caller_store).1 !! 2%positive
  = Some (ODict ∅).
Proof.
  apply write_postgis_touches_only_dtype.
  - vm_compute. reflexivity.
  - discriminate.
Defined.

Lemma write_postgis_srid_error_witness :
  let r := write_postgis no_srid to_sql_ok 1%positive "cities"
             (mk_kwargs (Some 2%positive) None) caller_store in
  r.2 = Raise (ValueError "No SRID for this CRS") /\
  r.1 !! 2%positive = Some (ODict ∅).
Proof.
  intros r.
  destruct (write_postgis_srid_error no_srid to_sql_ok 1%positive "cities"
              (mk_kwargs (Some 2%positive) None) caller_store two_points
              [mk_point 0 0; mk_point 1 2]
              (ValueError "No SRID for this CRS"))
    as [Hr Hs]; try (vm_compute; reflexivity).
  split; [exact Hr|]. apply Hs. vm_compute. reflexivity.
Defined.

End WriteFacts.

Module ZoomRangeFacts.
Import Py Geoplotting Spec GeoNotions ZoomFacts.

Lemma max2_cases (a b : Q) : max2 a b = a \/ max2 a b = b.
Proof. unfold max2. destruct (Qle_bool b a); auto. Qed.

Lemma min2_cases (a b : Q) : min2 a b = a \/ min2 a b = b.
Proof. unfold min2. destruct (Qle_bool a b); auto. Qed.

Lemma max2_ub (a b : Q) : (a <= max2 a b /\ b <= max2 a b)%Q.
Proof.
  rewrite max2_Qmax. split; [apply Q.le_max_l | apply Q.le_max_r].
Qed.

Lemma min2_lb (a b : Q) : (min2 a b <= a /\ min2 a b <= b)%Q.
Proof.
  unfold min2. destruct (Qle_bool a b) eqn:E.
  - apply Qle_bool_iff in E. split; [apply Qle_refl | exact E].
  - split; [|apply Qle_refl]. apply Qnot_lt_le. intros H.
    apply Qlt_le_weak, Qle_bool_iff in H. congruence.
Qed.

(** The fold of [max] returns an element of the sequence that bounds all
    of it. *)
Lemma fold_max2 (xs : list Q) (x : Q) :
  In (fold_left max2 xs x) (x :: xs) /\
  forall y, In y (x :: xs) -> (y <= fold_left max2 xs x)%Q.
Proof.
  revert x. induction xs as [|a xs IH]; intros x; simpl.
  - split; [auto|]. intros y [<- | []]. apply Qle_refl.
  - destruct (IH (max2 x a)) as [Hin Hub]. split.
    + destruct Hin as [Hin | Hin]; [|simpl; auto].
      rewrite <- Hin. destruct (max2_cases x a) as [-> | ->]; simpl; auto.
    + intros y Hy. destruct (max2_ub x a) as [Hx Ha].
      assert (Hm : (max2 x a <= fold_left max2 xs (max2 x a))%Q)
        by (apply Hub; left; reflexivity).
      destruct Hy as [<- | [<- | Hy]].
      * eapply Qle_trans; eassumption.
      * eapply Qle_trans; eassumption.
      * apply Hub. now right.
Qed.

Lemma fold_min2 (xs : list Q) (x : Q) :
  In (fold_left min2 xs x) (x :: xs) /\
  forall y, In y (x :: xs) -> (fold_left min2 xs x <= y)%Q.
Proof.
  revert x. induction xs as [|a xs IH]; intros x; simpl.
  - split; [auto|]. intros y [<- | []]. apply Qle_refl.
  - destruct (IH (min2 x a)) as [Hin Hlb]. split.
    + destruct Hin as [Hin | Hin]; [|simpl; auto].
      rewrite <- Hin. destruct (min2_cases x a) as [-> | ->]; simpl; auto.
    + intros y Hy. destruct (min2_lb x a) as [Hx Ha].
      assert (Hm : (fold_left min2 xs (min2 x a) <= min2 x a)%Q)
        by (apply Hlb; left; reflexivity).
      destruct Hy as [<- | [<- | Hy]].
      * eapply Qle_trans; eassumption.
      * eapply Qle_trans; eassumption.
      * apply Hlb. now right.
Qed.

Lemma py_max_spec (xs : list Q) (m : Q) :
  py_max xs = Ok m -> In m xs /\ forall y, In y xs -> (y <= m)%Q.
Proof.
  destruct xs as [|x xs]; [discriminate|]. intros [= <-]. apply fold_max2.
Qed.

Lemma py_min_spec (xs : list Q) (m : Q) :
  py_min xs = Ok m -> In m xs /\ forall y, In y xs -> (m <= y)%Q.
Proof.
  destruct xs as [|x xs]; [discriminate|]. intros [= <-]. apply fold_min2.
Qed.

Lemma get_auto_zoom_inv (gdf : GeoDataFrame) (z : Q) :
  get_auto_zoom gdf = Ok z ->
  exists max_lat min_lat max_lon min_lon,
    py_max (centroid_y gdf) = Ok max_lat /\
    py_min (centroid_y gdf) = Ok min_lat /\
    py_max (centroid_x gdf) = Ok max_lon /\
    py_min (centroid_x gdf) = Ok min_lon /\
    z = zoom_of_spans max_lat min_lat max_lon min_lon.
Proof.
  unfold get_auto_zoom. intros H.
  apply AnimateFacts.bind_Ok in H. destruct H as [a [Ha H]].
  apply AnimateFacts.bind_Ok in H. destruct H as [b [Hb H]].
  apply AnimateFacts.bind_Ok in H. destruct H as [c [Hc H]].
  apply AnimateFacts.bind_Ok in H. destruct H as [d [Hd H]].
  injection H as <-. exists a, b, c, d. auto.
Qed.

Lemma zoom_term_le (u v : Q) :
  (v <= u)%Q -> ((13 # 2) - u / 10 <= (13 # 2) - v / 10)%Q.
Proof.
  intros H. unfold Qminus. apply Qplus_le_r. apply Qopp_le_compat.
  unfold Qdiv. apply Qmult_le_compat_r; [exact H | discriminate].
Qed.

Lemma zoom_of_spans_le (a b c d a' b' c' d' : Q) :
  (a - b <= a' - b')%Q -> (c - d <= c' - d')%Q ->
  (zoom_of_spans a' b' c' d' <= zoom_of_spans a b c d)%Q.
Proof.
  intros H1 H2. unfold zoom_of_spans. rewrite !clamp_zoom_Qmax.
  apply Q.max_le_compat_l.
  assert (Hs : (max2 (a - b) (c - d) <= max2 (a' - b') (c' - d'))%Q).
  { rewrite !max2_Qmax. now apply Q.max_le_compat. }
  apply Qceiling_resp_le in Hs.
  assert (Hq : (inject_Z (Qceiling (max2 (a - b) (c - d)))
                <= inject_Z (Qceiling (max2 (a' - b') (c' - d'))))%Q).
  { rewrite <- Zle_Qle. exact Hs. }
  now apply zoom_term_le.
Qed.

Lemma zoom_of_spans_range (a b c d : Q) :
  (b <= a)%Q -> (1 <= zoom_of_spans a b c d <= 13 # 2)%Q.
Proof.
  intros Hab. unfold zoom_of_spans. split; [apply clamp_zoom_ge_1|].
  rewrite clamp_zoom_Qmax. apply Q.max_lub; [discriminate|].
  assert (Hs : (0 <= max2 (a - b) (c - d))%Q).
  { destruct (max2_ub (a - b) (c - d)) as [H _]. lra. }
  apply Qceiling_resp_le in Hs. change (Qceiling 0) with 0%Z in Hs.
  assert (Hq : (inject_Z 0 <= inject_Z (Qceiling (max2 (a - b) (c - d))))%Q)
    by (rewrite <- Zle_Qle; exact Hs).
  change (inject_Z 0) with 0%Q in Hq.
  eapply Qle_trans; [apply zoom_term_le, Hq | discriminate].
Qed.

(** X1: the auto zoom of a non-empty Feature Set lies between 1 and 6.5. *)
Theorem get_auto_zoom_range (gdf : GeoDataFrame) :
  rows gdf <> [] ->
  exists z, get_auto_zoom gdf = Ok z /\ (1 <= z <= 13 # 2)%Q.
Proof.
  intros Hne. destruct (EntryFacts.get_auto_zoom_nonempty gdf Hne) as [z Hz].
  exists z. split; [exact Hz|].
  apply get_auto_zoom_inv in Hz.
  destruct Hz as (a & b & c & d & Ha & Hb & _ & _ & ->).
  apply zoom_of_spans_range.
  apply py_max_spec in Ha. apply py_min_spec in Hb.
  destruct Ha as [_ Ha], Hb as [Hb _]. now apply Ha.
Qed.

Lemma get_auto_zoom_range_witness :
  exists z, get_auto_zoom (mk_gdf ["year"] [year_row 2000 0; year_row 2001 30])
            = Ok z /\ (1 <= z <= 13 # 2)%Q.
Proof. apply get_auto_zoom_range. simpl. discriminate. Defined.

Lemma incl_centroid_y (gdf gdf' : GeoDataFrame) :
  incl (rows gdf) (rows gdf') -> incl (centroid_y gdf) (centroid_y gdf').
Proof. intros H. unfold centroid_y. now apply incl_map. Qed.

Lemma incl_centroid_x (gdf gdf' : GeoDataFrame) :
  incl (rows gdf) (rows gdf') -> incl (centroid_x gdf) (centroid_x gdf').
Proof. intros H. unfold centroid_x. now apply incl_map. Qed.

Lemma span_incl (xs ys : list Q) (a b a' b' : Q) :
  incl xs ys ->
  py_max xs = Ok a -> py_min xs = Ok b ->
  py_max ys = Ok a' -> py_min ys = Ok b' ->
  (a - b <= a' - b')%Q.
Proof.
  intros Hi Ha Hb Ha' Hb'.
  apply py_max_spec in Ha, Ha'. apply py_min_spec in Hb, Hb'.
  destruct Ha as [Ha _], Hb as [Hb _], Ha' as [_ Ha'], Hb' as [_ Hb'].
  specialize (Ha' a (Hi a Ha)). specialize (Hb' b (Hi b Hb)). lra.
Qed.

(** X2: adding features never zooms in: when every feature of a non-empty
    Feature Set is also in a second one, the zoom of the second is at most
    the zoom of the first. *)
Theorem get_auto_zoom_antitone (gdf gdf' : GeoDataFrame) :
  rows gdf <> [] -> incl (rows gdf) (rows gdf') ->
  exists z z', get_auto_zoom gdf = Ok z /\ get_auto_zoom gdf' = Ok z' /\
               (z' <= z)%Q.
Proof.
  intros Hne Hi.
  assert (Hne' : rows gdf' <> []).
  { destruct (rows gdf) as [|f fs]; [congruence|].
    intros E. rewrite E in Hi. apply (Hi f). now left. }
  destruct (EntryFacts.get_auto_zoom_nonempty gdf Hne) as [z Hz].
  destruct (EntryFacts.get_auto_zoom_nonempty gdf' Hne') as [z' Hz'].
  exists z, z'. split; [exact Hz|]. split; [exact Hz'|].
  apply get_auto_zoom_inv in Hz, Hz'.
  destruct Hz as (a & b & c & d & Ha & Hb & Hc & Hd & ->).
  destruct Hz' as (a' & b' & c' & d' & Ha' & Hb' & Hc' & Hd' & ->).
  apply zoom_of_spans_le.
  - eapply span_incl; [apply incl_centroid_y, Hi | eassumption ..].
  - eapply span_incl; [apply incl_centroid_x, Hi | eassumption ..].
Qed.

Lemma get_auto_zoom_antitone_witness :
  exists z z',
    get_auto_zoom (mk_gdf ["year"] [year_row 2000 0; year_row 2001 3]) = Ok z /\
    get_auto_zoom (mk_gdf ["year"] [year_row 2002 20; year_row 2001 3;
                                    year_row 2000 0]) = Ok z' /\
    (z' <= z)%Q.
Proof.
  apply get_auto_zoom_antitone.
  - simpl. discriminate.
  - simpl. intros f [<- | [<- | []]]; simpl; auto.
Defined.

Lemma Qceiling_ge (x : Q) (n : Z) :
  (inject_Z n <= x)%Q -> (inject_Z n <= inject_Z (Qceiling x))%Q.
Proof.
  intros H. eapply Qle_trans; [exact H | apply Qle_ceiling].
Qed.

(** X3: when the centroids of two features lie 55 degrees or more apart in
    latitude or in longitude, the zoom is 1.  (55, 5.5 and 1 are binary64
    numbers and rounding is monotone, so the bound is the same under the
    source's rounded subtraction and division.) *)
Theorem get_auto_zoom_saturates (gdf : GeoDataFrame) (f g : Feature) (z : Q) :
  In f (rows gdf) -> In g (rows gdf) ->
  (55 <= snd (centroid (geom f)) - snd (centroid (geom g)) \/
   55 <= fst (centroid (geom f)) - fst (centroid (geom g)))%Q ->
  get_auto_zoom gdf = Ok z -> (z == 1)%Q.
Proof.
  intros Hf Hg Hfar Hz. apply get_auto_zoom_inv in Hz.
  destruct Hz as (a & b & c & d & Ha & Hb & Hc & Hd & ->).
  apply py_max_spec in Ha, Hc. apply py_min_spec in Hb, Hd.
  destruct Ha as [_ Ha], Hb as [_ Hb], Hc as [_ Hc], Hd as [_ Hd].
  assert (Hfy := Ha _ (in_map (fun f => snd (centroid (geom f))) _ _ Hf)).
  assert (Hgy := Hb _ (in_map (fun f => snd (centroid (geom f))) _ _ Hg)).
  assert (Hfx := Hc _ (in_map (fun f => fst (centroid (geom f))) _ _ Hf)).
  assert (Hgx := Hd _ (in_map (fun f => fst (centroid (geom f))) _ _ Hg)).
  simpl in Hfy, Hgy, Hfx, Hgx.
  assert (Hs : (inject_Z 55 <= max2 (a - b) (c - d))%Q).
  { destruct (max2_ub (a - b) (c - d)) as [H1 H2].
    change (inject_Z 55) with 55%Q. destruct Hfar; lra. }
  apply Qceiling_ge in Hs. unfold zoom_of_spans.
  rewrite clamp_zoom_Qmax. apply Q.max_l.
  eapply Qle_trans; [apply zoom_term_le, Hs | discriminate].
Qed.

Lemma get_auto_zoom_saturates_witness :
  exists z, get_auto_zoom (mk_gdf ["year"] [year_row 2000 55; year_row 2001 0])
            = Ok z /\ (z == 1)%Q.
Proof.
  eexists. split; [vm_compute; reflexivity|].
  apply (get_auto_zoom_saturates
           (mk_gdf ["year"] [year_row 2000 55; year_row 2001 0])
           (year_row 2000 55) (year_row 2001 0)).
  - simpl. auto.
  - simpl. auto.
  - left. apply Qle_bool_imp_le. reflexivity.
  - vm_compute. reflexivity.
Defined.

Lemma Qceiling_zero (x : Q) : (x == 0)%Q -> Qceiling x = 0%Z.
Proof. intros H. now rewrite H. Qed.

(** X23: a Feature Set whose centroids all coincide, a single feature in
    particular, gets the largest zoom, 6.5. *)
Theorem get_auto_zoom_one_place (gdf : GeoDataFrame) (p : Q * Q) :
  rows gdf <> [] ->
  Forall (fun f => centroid (geom f) = p) (rows gdf) ->
  exists z, get_auto_zoom gdf = Ok z /\ (z == 13 # 2)%Q.
Proof.
  intros Hne Hall.
  destruct (EntryFacts.get_auto_zoom_nonempty gdf Hne) as [z Hz].
  exists z. split; [exact Hz|].
  apply get_auto_zoom_inv in Hz.
  destruct Hz as (a & b & c & d & Ha & Hb & Hc & Hd & ->).
  apply py_max_spec in Ha, Hc. apply py_min_spec in Hb, Hd.
  destruct Ha as [Ha _], Hb as [Hb _], Hc as [Hc _], Hd as [Hd _].
  rewrite List.Forall_forall in Hall.
  assert (Hy : forall y, In y (centroid_y gdf) -> y = snd p).
  { intros y Hy. apply in_map_iff in Hy. destruct Hy as [f [<- Hf]].
    now rewrite (Hall f Hf). }
  assert (Hx : forall x, In x (centroid_x gdf) -> x = fst p).
  { intros x Hx. apply in_map_iff in Hx. destruct Hx as [f [<- Hf]].
    now rewrite (Hall f Hf). }
  rewrite (Hy a Ha), (Hy b Hb), (Hx c Hc), (Hx d Hd).
  unfold zoom_of_spans. rewrite clamp_zoom_Qmax.
  rewrite (Qceiling_zero (max2 (snd p - snd p) (fst p - fst p))).
  - reflexivity.
  - destruct (max2_cases (snd p - snd p) (fst p - fst p)) as [-> | ->]; ring.
Qed.

Lemma get_auto_zoom_one_place_witness :
  exists z, get_auto_zoom (mk_gdf [] [mk_feature (mk_box 0 0 10 10) []])
            = Ok z /\ (z == 13 # 2)%Q.
Proof.
  apply (get_auto_zoom_one_place _ (centroid (mk_box 0 0 10 10))).
  - simpl. discriminate.
  - repeat constructor.
Defined.

End ZoomRangeFacts.

Module CenterFacts.
Import Py Geoplotting Spec GeoNotions ZoomRangeFacts.

Lemma midpoint_between (a b : Q) :
  (a <= b)%Q -> (a <= (a + b) / 2 <= b)%Q.
Proof.
  intros H. unfold Qdiv. change (/ 2)%Q with (1 # 2)%Q. lra.
Qed.

Lemma py_min_max_le (f g : bbox -> Q) (bs : list bbox) (lo hi : Q) :
  bs <> [] -> Forall (fun b => (f b <= g b)%Q) bs ->
  py_min (map f bs) = Ok lo -> py_max (map g bs) = Ok hi -> (lo <= hi)%Q.
Proof.
  intros Hne Hall Hlo Hhi. destruct bs as [|b bs]; [congruence|].
  apply py_min_spec in Hlo. apply py_max_spec in Hhi.
  destruct Hlo as [_ Hlo], Hhi as [_ Hhi].
  apply Forall_inv in Hall.
  specialize (Hlo (f b) (or_introl eq_refl)).
  specialize (Hhi (g b) (or_introl eq_refl)). simpl in Hlo, Hhi. lra.
Qed.

(** X4: the auto center of a non-empty Feature Set whose geometries have
    ordered bounding boxes lies inside the total bounds, on both axes. *)
Theorem get_auto_center_within (gdf : GeoDataFrame) :
  rows gdf <> [] ->
  Forall (fun f => ordered_bbox (bounds (geom f))) (rows gdf) ->
  exists c e,
    get_auto_center gdf = Ok c /\ total_bounds gdf = Ok e /\
    (minx e <= lon c <= maxx e)%Q /\ (miny e <= lat c <= maxy e)%Q.
Proof.
  intros Hne Hall. unfold get_auto_center, total_bounds, bbox_of.
  set (bs := map (fun f => bounds (geom f)) (rows gdf)).
  assert (Hbs : bs <> []).
  { unfold bs. destruct (rows gdf); [congruence | discriminate]. }
  assert (Hx : Forall (fun b => (minx b <= maxx b)%Q) bs).
  { unfold bs. apply List.Forall_map. eapply List.Forall_impl; [|exact Hall].
    intros f Hf. apply Hf. }
  assert (Hy : Forall (fun b => (miny b <= maxy b)%Q) bs).
  { unfold bs. apply List.Forall_map. eapply List.Forall_impl; [|exact Hall].
    intros f Hf. apply Hf. }
  destruct bs as [|b bs'] eqn:Eb; [congruence|]. rewrite <- Eb in *.
  destruct (py_min (map minx bs)) as [x0|] eqn:Ex0;
    [|rewrite Eb in Ex0; discriminate].
  destruct (py_min (map miny bs)) as [y0|] eqn:Ey0;
    [|rewrite Eb in Ey0; discriminate].
  destruct (py_max (map maxx bs)) as [x1|] eqn:Ex1;
    [|rewrite Eb in Ex1; discriminate].
  destruct (py_max (map maxy bs)) as [y1|] eqn:Ey1;
    [|rewrite Eb in Ey1; discriminate].
  unfold mbind, result_bind. simpl.
  eexists _, _. split; [reflexivity|]. split; [reflexivity|]. simpl.
  split; apply midpoint_between.
  - eapply (py_min_max_le minx maxx bs); eassumption.
  - eapply (py_min_max_le miny maxy bs); eassumption.
Qed.

Lemma get_auto_center_within_witness :
  let gdf := mk_gdf [] [mk_feature (mk_point 0 0) [];
                        mk_feature (mk_box 4 2 10 10) []] in
  exists c e,
    get_auto_center gdf = Ok c /\ total_bounds gdf = Ok e /\
    (lon c == 5)%Q /\ (lat c == 5)%Q /\
    (minx e <= lon c <= maxx e)%Q /\ (miny e <= lat c <= maxy e)%Q.
Proof.
  intros gdf.
  destruct (get_auto_center_within gdf) as (c & e & Hc & He & Hx & Hy).
  - simpl. discriminate.
  - repeat constructor; simpl; discriminate.
  - exists c, e. split; [exact Hc|]. split; [exact He|].
    vm_compute in Hc. injection Hc as <-.
    split; [reflexivity|]. split; [reflexivity|]. split; assumption.
Defined.

End CenterFacts.

Module SceneFacts.
Import Py Geoplotting Spec GeoNotions.

Lemma missing_column_None (gdf : GeoDataFrame) (cols : list string) :
  missing_column gdf cols = None <->
  forall c, In c cols -> has_column gdf c = true.
Proof.
  induction cols as [|c cols IH]; simpl.
  - split; [intros _ c [] | reflexivity].
  - destruct (has_column gdf c) eqn:E.
    + rewrite IH. split.
      * intros H x [<- | Hx]; auto.
      * intros H x Hx. apply H. now right.
    + split; [discriminate|]. intros H.
      specialize (H c (or_introl eq_refl)). congruence.
Qed.

Lemma missing_column_Some (gdf : GeoDataFrame) (cols : list string)
    (c : string) :
  missing_column gdf cols = Some c -> In c cols /\ has_column gdf c = false.
Proof.
  induction cols as [|x cols IH]; simpl; [discriminate|].
  destruct (has_column gdf x) eqn:E.
  - intros H. destruct (IH H). auto.
  - intros [= <-]. auto.
Qed.

Lemma hover_text_length (gdf : GeoDataFrame) (cols : list string)
    (t : list string) :
  hover_text gdf cols = Ok t -> length t = length (rows gdf).
Proof.
  unfold hover_text. destruct (missing_column gdf cols); [discriminate|].
  intros [= <-]. apply length_map.
Qed.

Lemma build_figure_inv (tok : option string) (gdf : GeoDataFrame)
    (a : plot_args) (fig : Figure) (tc : option (list string)) :
  build_figure tok gdf a = Ok (fig, tc) ->
  exists c z text,
    match arg_center a with
    | None => get_auto_center gdf
    | Some c => Ok c
    end = Ok c /\
    match arg_zoom a with
    | None => get_auto_zoom gdf
    | Some z => Ok z
    end = Ok z /\
    (if truthy_list (arg_text a)
     then exists t, hover_text gdf (default [] (arg_text a)) = Ok t /\
                    text = Some t /\ tc = arg_text a
     else text = arg_text a /\ tc = None) /\
    fig = scene tok gdf a c z text.
Proof.
  unfold build_figure, mbind, result_bind.
  destruct (match arg_center a with
            | None => get_auto_center gdf
            | Some c => Ok c
            end) as [c|]; simpl; [|discriminate].
  destruct (match arg_zoom a with
            | None => get_auto_zoom gdf
            | Some z => Ok z
            end) as [z|]; simpl; [|discriminate].
  destruct (truthy_list (arg_text a)) eqn:Et; simpl.
  - destruct (hover_text gdf _) as [t|] eqn:Eh; simpl; [|discriminate].
    intros [= <- <-]. exists c, z, (Some t). eauto 10.
  - intros [= <- <-]. exists c, z, (arg_text a). eauto 10.
Qed.

Lemma plot_static_inv (tok : option string) (gdf : GeoDataFrame)
    (a : plot_args) (o : outcome) :
  truthy_str (arg_animate_by a) = false ->
  plot_markers_with_mapbox tok gdf a = Ok o ->
  exists tc, build_figure tok gdf a = Ok (fig_of o, tc).
Proof.
  intros Hby. unfold plot_markers_with_mapbox, mbind, result_bind.
  destruct (build_figure tok gdf a) as [[fig tc]|]; simpl; [|discriminate].
  rewrite Hby. simpl.
  destruct (arg_return_fig a); intros [= <-]; eauto.
Qed.

Lemma shape_rows_length (gdf : GeoDataFrame) :
  length (rows (shape_rows gdf)) <= length (rows gdf).
Proof. unfold shape_rows. simpl. apply List.filter_length_le. Qed.

(** X5: a static render puts one marker per feature, at the centroids in
    row order, whatever the geometry kinds; with text columns it carries one
    hover text per feature; and it has at most as many layers as markers. *)
Theorem plot_markers_one_per_feature (tok : option string)
    (gdf : GeoDataFrame) (a : plot_args) (o : outcome) :
  truthy_str (arg_animate_by a) = false ->
  plot_markers_with_mapbox tok gdf a = Ok o ->
  exists trace,
    data (fig_of o) = [trace] /\
    trace_lat trace = centroid_y gdf /\
    trace_lon trace = centroid_x gdf /\
    length (trace_lat trace) = length (rows gdf) /\
    (truthy_list (arg_text a) = true ->
     exists t, trace_text trace = Some t /\ length t = length (rows gdf)) /\
    length (layers (mapbox (layout (fig_of o)))) <= length (trace_lat trace).
Proof.
  intros Hby Hp. destruct (plot_static_inv tok gdf a o Hby Hp) as [tc Hb].
  apply build_figure_inv in Hb.
  destruct Hb as (c & z & text & _ & _ & Ht & ->).
  eexists. split; [reflexivity|]. simpl.
  split; [reflexivity|]. split; [reflexivity|].
  split; [apply length_map|]. split.
  - intros E. rewrite E in Ht. destruct Ht as (t & Hh & -> & _).
    exists t. split; [reflexivity|]. eapply hover_text_length, Hh.
  - unfold gdf_to_plotly_layers, to_json, centroid_y. simpl.
    rewrite !length_map. apply List.filter_length_le.
Qed.

Lemma plot_markers_one_per_feature_witness :
  let gdf := mk_gdf ["year"] [year_row 2000 0;
                              mk_feature (mk_box 0 0 2 2) [("year", 2001%Z)]] in
  let a := mk_args (Some ["year"]) None None None "markers" "darkblue" "basic"
             None true (1 # 2) None in
  exists o trace,
    plot_markers_with_mapbox None gdf a = Ok o /\
    data (fig_of o) = [trace] /\
    length (trace_lat trace) = 2 /\
    trace_text trace = Some ["2000"; "2001"] /\
    length (layers (mapbox (layout (fig_of o)))) <= 2.
Proof.
  intros gdf a. eexists.
  destruct (plot_markers_one_per_feature None gdf a _ eq_refl
              ltac:(vm_compute; reflexivity))
    as (trace & Hd & _ & _ & Hl & _ & Hla).
  exists trace. split; [vm_compute; reflexivity|].
  split; [exact Hd|]. split; [exact Hl|]. split.
  - vm_compute in Hd. injection Hd as <-. reflexivity.
  - rewrite Hl in Hla. exact Hla.
Defined.

(** X6: when a text column is not a column of the Feature Set, the render
    raises the KeyError of a listed column that the frame lacks. *)
Theorem plot_markers_missing_text_column (tok : option string)
    (gdf : GeoDataFrame) (a : plot_args) (cols : list string) :
  arg_text a = Some cols ->
  (exists c, In c cols /\ has_column gdf c = false) ->
  rows gdf <> [] \/ (arg_center a <> None /\ arg_zoom a <> None) ->
  exists c, In c cols /\ has_column gdf c = false /\
            plot_markers_with_mapbox tok gdf a = Raise (KeyError c).
Proof.
  intros Ht [c0 [Hin Hc0]] Hframe.
  destruct (missing_column gdf cols) as [c|] eqn:Em.
  2:{ rewrite missing_column_None in Em. rewrite (Em c0 Hin) in Hc0.
      discriminate. }
  destruct (missing_column_Some gdf cols c Em) as [Hc Hno].
  exists c. split; [exact Hc|]. split; [exact Hno|].
  unfold plot_markers_with_mapbox, build_figure. rewrite Ht.
  assert (Hcen : exists x, match arg_center a with
                           | None => get_auto_center gdf
                           | Some c => Ok c
                           end = Ok x).
  { destruct (arg_center a) as [x|]; [eauto|].
    destruct Hframe as [Hne | [Hx _]]; [|congruence].
    now apply EntryFacts.get_auto_center_nonempty. }
  assert (Hzoom : exists z, match arg_zoom a with
                            | None => get_auto_zoom gdf
                            | Some z => Ok z
                            end = Ok z).
  { destruct (arg_zoom a) as [z|]; [eauto|].
    destruct Hframe as [Hne | [_ Hz]]; [|congruence].
    now apply EntryFacts.get_auto_zoom_nonempty. }
  destruct Hcen as [x ->], Hzoom as [z ->].
  destruct cols as [|c1 cols]; [destruct Hin|].
  unfold mbind, result_bind. simpl truthy_list. cbn [bind default].
  unfold hover_text, id. rewrite Em. reflexivity.
Qed.

Lemma plot_markers_missing_text_column_witness :
  exists c,
    In c ["year"; "name"] /\
    plot_markers_with_mapbox None (mk_gdf ["year"] [year_row 2000 0])
      (mk_args (Some ["year"; "name"]) None None None "markers" "darkblue"
         "basic" None true (1 # 2) None)
    = Raise (KeyError c).
Proof.
  destruct (plot_markers_missing_text_column None
              (mk_gdf ["year"] [year_row 2000 0])
              (mk_args (Some ["year"; "name"]) None None None "markers"
                 "darkblue" "basic" None true (1 # 2) None)
              ["year"; "name"] eq_refl)
    as (c & Hc & _ & Hr).
  - exists "name". split; [simpl; auto | reflexivity].
  - left. simpl. discriminate.
  - exists c. split; [exact Hc | exact Hr].
Defined.

(** X7: every layer of a static render is a geojson fill layer with the
    color and the opacity of the call, and a red outline. *)
Theorem plot_markers_layer_style (tok : option string) (gdf : GeoDataFrame)
    (a : plot_args) (o : outcome) :
  truthy_str (arg_animate_by a) = false ->
  plot_markers_with_mapbox tok gdf a = Ok o ->
  Forall (fun l => sourcetype l = "geojson" /\ layer_type l = "fill" /\
                   layer_color l = arg_color a /\
                   layer_opacity l = arg_opacity a /\
                   fill_outlinecolor l = "red")
    (layers (mapbox (layout (fig_of o)))).
Proof.
  intros Hby Hp. destruct (plot_static_inv tok gdf a o Hby Hp) as [tc Hb].
  apply build_figure_inv in Hb.
  destruct Hb as (c & z & text & _ & _ & _ & ->). simpl.
  unfold gdf_to_plotly_layers. apply List.Forall_forall.
  intros l Hl. apply in_map_iff in Hl. destruct Hl as [g [<- _]].
  simpl. auto.
Qed.

Lemma plot_markers_layer_style_witness :
  let gdf := mk_gdf [] [mk_feature (mk_box 0 0 2 2) []] in
  let a := mk_args None None None None "markers" "green" "basic" None true
             (1 # 4) None in
  exists o, plot_markers_with_mapbox None gdf a = Ok o /\
    Forall (fun l => sourcetype l = "geojson" /\ layer_type l = "fill" /\
                     layer_color l = "green" /\ layer_opacity l = 1 # 4 /\
                     fill_outlinecolor l = "red")
      (layers (mapbox (layout (fig_of o)))) /\
    length (layers (mapbox (layout (fig_of o)))) = 1.
Proof.
  intros gdf a. eexists. split; [vm_compute; reflexivity|]. split.
  - apply (plot_markers_layer_style None gdf a); reflexivity.
  - reflexivity.
Defined.

End SceneFacts.

Module SequenceFacts.
Import Py Geoplotting Spec GeoNotions GroupFacts AnimateFacts SceneFacts.

Lemma animate_inv_figure (tok : option string) (df : GeoDataFrame)
    (by_ : string) (fig : option Figure) (kw : animate_kwargs) (out : Figure) :
  animate tok df by_ fig kw = Ok out ->
  exists z c groups figs base,
    get_auto_zoom df = Ok z /\ get_auto_center df = Ok c /\
    groupby df by_ = Ok groups /\
    group_figs tok groups by_ z c kw = Ok figs /\
    base_figure fig figs = Some base /\
    out = mk_figure (data base)
            (mk_layout (mapbox (layout base))
               [mk_sliders (by_ ++ ": ") 300 (map step_of figs)]
               play_pause_menus)
            (map frame_of figs).
Proof.
  unfold animate. intros H.
  apply bind_Ok in H. destruct H as [groups [Hg H]].
  apply bind_Ok in H. destruct H as [z [Hz H]].
  apply bind_Ok in H. destruct H as [c [Hc H]].
  apply bind_Ok in H. destruct H as [figs [Hf H]].
  fold (base_figure fig figs) in H.
  destruct (base_figure fig figs) as [base|] eqn:Eb; [|discriminate].
  injection H as <-. exists z, c, groups, figs, base. auto 10.
Qed.

(** X8: the Animation Sequencer keeps the data and the mapbox (camera,
    style, layers) of the figure it is given; it sets the frames, one
    slider whose prefix names the grouping attribute, and the play and
    pause menus. *)
Theorem animate_keeps_figure (tok : option string) (df : GeoDataFrame)
    (by_ : string) (fig : Figure) (kw : animate_kwargs) (out : Figure) :
  animate tok df by_ (Some fig) kw = Ok out ->
  data out = data fig /\
  mapbox (layout out) = mapbox (layout fig) /\
  updatemenus (layout out) = play_pause_menus /\
  map currentvalue_prefix (sliders (layout out)) = [by_ ++ ": "].
Proof.
  intros H. apply animate_inv_figure in H.
  destruct H as (z & c & groups & figs & base & _ & _ & _ & _ & Hb & ->).
  injection Hb as <-. simpl. auto.
Qed.

(** X9: without a figure to start from, the Animation Sequencer returns
    the figure of the first group: there is a first Frame, and the data of
    the result are the data of that Frame. *)
Theorem animate_starts_from_first_group (tok : option string)
    (df : GeoDataFrame) (by_ : string) (kw : animate_kwargs) (out : Figure) :
  animate tok df by_ None kw = Ok out ->
  exists fr rest,
    frames out = fr :: rest /\ data out = frame_data fr.
Proof.
  intros H. apply animate_inv_figure in H.
  destruct H as (z & c & groups & figs & base & _ & _ & _ & _ & Hb & ->).
  destruct figs as [|g figs]; [discriminate|].
  injection Hb as <-. simpl. eauto.
Qed.

Lemma animate_starts_from_first_group_witness :
  exists out fr rest,
    animate None two_years "year" None plain_kwargs = Ok out /\
    frames out = fr :: rest /\ data out = frame_data fr /\
    frame_name fr = "2000".
Proof.
  eexists.
  destruct (animate_starts_from_first_group None two_years "year"
              plain_kwargs _ ltac:(vm_compute; reflexivity))
    as (fr & rest & Hfr & Hd).
  exists fr, rest. split; [vm_compute; reflexivity|].
  split; [exact Hfr|]. split; [exact Hd|].
  vm_compute in Hfr. injection Hfr as <- _. reflexivity.
Defined.

Lemma animate_keeps_figure_witness :
  exists out,
    animate None two_years "year" (Some blank_figure) plain_kwargs = Ok out /\
    data out = [] /\
    mapbox (layout out) = mk_mapbox None 0 (mk_center 0 0) 0 3 "dark" [] /\
    length (frames out) = 2.
Proof.
  eexists. split; [vm_compute; reflexivity|].
  destruct (animate_keeps_figure None two_years "year" blank_figure
              plain_kwargs _ ltac:(vm_compute; reflexivity))
    as (Hd & Hm & _ & _).
  split; [exact Hd|]. split; [exact Hm | reflexivity].
Defined.

(** X10: a grouping attribute that is not a column of the Feature Set
    raises its KeyError, before the auto framing and so also on the empty
    Feature Set. *)
Theorem animate_missing_key (tok : option string) (df : GeoDataFrame)
    (by_ : string) (fig : option Figure) (kw : animate_kwargs) :
  has_column df by_ = false ->
  animate tok df by_ fig kw = Raise (KeyError by_).
Proof.
  intros H. unfold animate, groupby. rewrite H. reflexivity.
Qed.

Lemma animate_missing_key_witness :
  animate None (mk_gdf ["year"] []) "month" None plain_kwargs
    = Raise (KeyError "month") /\
  animate None two_years "month" None plain_kwargs = Raise (KeyError "month").
Proof.
  split; apply animate_missing_key; reflexivity.
Defined.

(** *** The rows of a group *)

Lemma filter_has_key_nil (by_ : string) (k : Z) (p : list Feature) :
  ~ In k (key_values by_ p) -> List.filter (has_key by_ k) p = [].
Proof.
  unfold key_values. induction p as [|f p IH]; simpl; [reflexivity|].
  unfold has_key at 1.
  destruct (lookup_attr by_ (properties f)) as [k'|]; simpl.
  - intros H. destruct (Z.eqb_spec k' k).
    + exfalso. apply H. left. congruence.
    + apply IH. intros Hin. apply H. now right.
  - exact IH.
Qed.

Lemma insert_group_In (k : Z) (f : Feature) (gs : list (Z * list Feature))
    (k' : Z) (fs' : list Feature) :
  StronglySorted Z.lt (group_keys gs) ->
  In (k', fs') (insert_group k f gs) ->
  (k' <> k /\ In (k', fs') gs) \/
  (k' = k /\ ((exists fs, In (k, fs) gs /\ fs' = (fs ++ [f])%list) \/
              (~ In k (group_keys gs) /\ fs' = [f]))).
Proof.
  induction gs as [|[k0 fs0] gs IH]; simpl; intros Hs Hin.
  - destruct Hin as [[= <- <-] | []]. right. split; [reflexivity|].
    right. split; [tauto | reflexivity].
  - apply StronglySorted_inv in Hs. destruct Hs as [Hs Hall].
    rewrite List.Forall_forall in Hall.
    destruct (Z.ltb_spec k k0).
    + destruct Hin as [[= <- <-] | [[= <- <-] | Hin]].
      * right. split; [reflexivity|]. right. split; [|reflexivity].
        intros [E | Hk]; [lia|]. apply Hall in Hk. lia.
      * left. split; [lia | now left].
      * destruct (Z.eq_dec k' k) as [-> | Hne].
        -- exfalso. assert (Hk : In k (group_keys gs))
             by (apply (in_map fst _ _ Hin)).
           apply Hall in Hk. lia.
        -- left. split; [exact Hne | now right].
    + destruct (Z.eqb_spec k k0) as [-> | Hne].
      * destruct Hin as [[= <- <-] | Hin].
        -- right. split; [reflexivity|]. left. exists fs0. split; auto.
        -- left. split; [|now right]. intros ->.
           assert (Hk : In k0 (group_keys gs))
             by (apply (in_map fst _ _ Hin)).
           apply Hall in Hk. lia.
      * destruct Hin as [[= <- <-] | Hin].
        -- left. split; [congruence | now left].
        -- destruct (IH Hs Hin) as [[Hk Hg] | [-> [[fs [Hg ->]] | [Hno ->]]]].
           ++ left. split; [exact Hk | now right].
           ++ right. split; [reflexivity|]. left. exists fs. split; auto.
           ++ right. split; [reflexivity|]. right. split; [|reflexivity].
              intros [E | Hk]; [congruence | contradiction].
Qed.

Lemma key_values_app (by_ : string) (p q : list Feature) :
  key_values by_ (p ++ q) = (key_values by_ p ++ key_values by_ q)%list.
Proof. unfold key_values. apply omap_app. Qed.

Lemma groups_of_step (by_ : string) (p : list Feature) (f : Feature)
    (gs : list (Z * list Feature)) :
  groups_of by_ p gs ->
  groups_of by_ (p ++ [f])
    (match lookup_attr by_ (properties f) with
     | Some k => insert_group k f gs
     | None => gs
     end).
Proof.
  intros (Hs & Hk & Hg).
  assert (Hkv : key_values by_ [f] =
                match lookup_attr by_ (properties f) with
                | Some k => [k]
                | None => []
                end).
  { unfold key_values. simpl. now destruct (lookup_attr by_ (properties f)). }
  destruct (lookup_attr by_ (properties f)) as [k|] eqn:Ek.
  - split; [now apply insert_group_sorted|]. split.
    + intros x. rewrite insert_group_keys, key_values_app, Hkv, in_app_iff, Hk.
      simpl. intuition.
    + intros k' fs' Hin. rewrite List.filter_app. simpl. unfold has_key at 2.
      rewrite Ek.
      destruct (insert_group_In k f gs k' fs' Hs Hin)
        as [[Hne Hin'] | [-> [[fs [Hin' ->]] | [Hno ->]]]].
      * destruct (Z.eqb_spec k k'); [congruence|].
        rewrite app_nil_r. now apply Hg.
      * rewrite Z.eqb_refl. f_equal. now apply Hg.
      * rewrite Z.eqb_refl. rewrite filter_has_key_nil; [reflexivity|].
        intros Hin'. apply Hno, Hk, Hin'.
  - split; [exact Hs|]. split.
    + intros x. rewrite key_values_app, Hkv, app_nil_r. apply Hk.
    + intros k' fs' Hin. rewrite List.filter_app. simpl. unfold has_key at 2.
      rewrite Ek. rewrite app_nil_r. now apply Hg.
Qed.

Lemma groups_of_fold (by_ : string) (fs p : list Feature)
    (gs : list (Z * list Feature)) :
  groups_of by_ p gs ->
  groups_of by_ (p ++ fs)
    (fold_left (fun gs f =>
                  match lookup_attr by_ (properties f) with
                  | Some k => insert_group k f gs
                  | None => gs
                  end) fs gs).
Proof.
  revert p gs. induction fs as [|f fs IH]; intros p gs H; simpl.
  - now rewrite app_nil_r.
  - replace (p ++ f :: fs)%list with ((p ++ [f]) ++ fs)%list
      by (now rewrite <- app_assoc).
    apply IH. now apply groups_of_step.
Qed.

Lemma group_rows_groups_of (by_ : string) (fs : list Feature) :
  groups_of by_ fs (group_rows by_ fs).
Proof.
  apply (groups_of_fold by_ fs [] []).
  split; [constructor|]. split; [reflexivity|]. intros k x [].
Qed.

End SequenceFacts.

Module FrameFacts.
Import Py Geoplotting Spec GeoNotions GroupFacts AnimateFacts SceneFacts SequenceFacts.

Lemma centroid_y_drop (g : GeoDataFrame) (by_ : string) :
  centroid_y (drop g by_) = centroid_y g.
Proof. unfold centroid_y, drop. simpl. now rewrite map_map. Qed.

Lemma centroid_x_drop (g : GeoDataFrame) (by_ : string) :
  centroid_x (drop g by_) = centroid_x g.
Proof. unfold centroid_x, drop. simpl. now rewrite map_map. Qed.

Lemma iplot_inv (tok : option string) (g : GeoDataFrame) (z : Q) (c : Center)
    (kw : animate_kwargs) (fig : Figure) :
  iplot tok g z c kw = Ok fig ->
  exists tr, data fig = [tr] /\ trace_lat tr = centroid_y g /\
             trace_lon tr = centroid_x g.
Proof.
  unfold iplot. intros H. apply bind_Ok in H.
  destruct H as [[f tc] [Hb H]]. injection H as <-.
  apply build_figure_inv in Hb.
  destruct Hb as (c' & z' & text & _ & _ & _ & ->).
  simpl. eauto.
Qed.

(** Every group figure is the figure of one group, under the key of that
    group. *)
Lemma group_figs_In (tok : option string) (groups : list (Z * GeoDataFrame))
    (by_ : string) (z : Q) (c : Center) (kw : animate_kwargs)
    (figs : list (Z * Figure)) (p : Z * Figure) :
  group_figs tok groups by_ z c kw = Ok figs -> In p figs ->
  exists g, In g groups /\ fst p = fst g /\
            iplot tok (drop (snd g) by_) z c kw = Ok (snd p).
Proof.
  unfold group_figs. revert figs.
  induction groups as [|g gs IH]; simpl; intros figs H Hp.
  - injection H as <-. destruct Hp.
  - unfold bind in H at 1.
    destruct (iplot tok (drop (snd g) by_) z c kw ≫= _) as [q|] eqn:E;
      [|discriminate].
    apply bind_Ok in E. destruct E as [fig [Hfig Hq]]. injection Hq as <-.
    unfold bind in H at 1.
    destruct (mapM _ gs) as [ps|] eqn:Egs; [|discriminate].
    injection H as <-. destruct Hp as [<- | Hp].
    + exists g. simpl. auto.
    + destruct (IH ps eq_refl Hp) as [g' [Hg' Hr]]. exists g'. auto.
Qed.

Lemma groupby_In (df : GeoDataFrame) (by_ : string)
    (groups : list (Z * GeoDataFrame)) (g : Z * GeoDataFrame) :
  groupby df by_ = Ok groups -> In g groups ->
  columns (snd g) = columns df /\
  rows (snd g) = List.filter (has_key by_ (fst g)) (rows df) /\
  In (fst g) (key_values by_ (rows df)).
Proof.
  unfold groupby. destruct (has_column df by_); [|discriminate].
  intros [= <-] Hg. apply in_map_iff in Hg. destruct Hg as [[k fs] [<- Hin]].
  simpl. destruct (group_rows_groups_of by_ (rows df)) as (_ & Hk & Hf).
  split; [reflexivity|]. split; [now apply Hf|].
  apply Hk. apply (in_map fst _ _ Hin).
Qed.

(** X11: every Frame is named after one grouping-key value of the Feature
    Set and holds one trace, whose markers are the centroids of exactly the
    features with that key value, in row order. *)
Theorem animate_frame_rows (tok : option string) (df : GeoDataFrame)
    (by_ : string) (fig : option Figure) (kw : animate_kwargs) (out : Figure) :
  animate tok df by_ fig kw = Ok out ->
  Forall (fun fr =>
            exists k tr,
              In k (key_values by_ (rows df)) /\
              frame_name fr = str k /\
              frame_data fr = [tr] /\
              let members := List.filter (has_key by_ k) (rows df) in
              trace_lat tr = map (fun f => snd (centroid (geom f))) members /\
              trace_lon tr = map (fun f => fst (centroid (geom f))) members)
    (frames out).
Proof.
  intros H. apply animate_inv_figure in H.
  destruct H as (z & c & groups & figs & base & _ & _ & Hg & Hf & _ & ->).
  simpl. apply List.Forall_forall. intros fr Hfr.
  apply in_map_iff in Hfr. destruct Hfr as [p [<- Hp]].
  destruct (group_figs_In _ _ _ _ _ _ _ _ Hf Hp) as (g & Hgin & Hk & Hi).
  destruct (groupby_In df by_ groups g Hg Hgin) as (_ & Hrows & Hkey).
  apply iplot_inv in Hi. destruct Hi as (tr & Hd & Hlat & Hlon).
  exists (fst g), tr. unfold frame_of. simpl. rewrite Hk.
  split; [exact Hkey|]. split; [reflexivity|]. split; [exact Hd|].
  rewrite Hlat, Hlon, centroid_y_drop, centroid_x_drop.
  unfold centroid_y, centroid_x. rewrite Hrows. split; reflexivity.
Qed.

Lemma animate_frame_rows_witness :
  let df := mk_gdf ["year"] [year_row 2001 0; year_row 2000 10;
                             year_row 2001 4] in
  exists out,
    animate None df "year" None plain_kwargs = Ok out /\
    map (fun fr => (frame_name fr, map trace_lat (frame_data fr))) (frames out)
      = [("2000", [[10]]); ("2001", [[0; 4]])]%Q /\
    Forall (fun fr => exists k tr,
              In k (key_values "year" (rows df)) /\
              frame_name fr = str k /\ frame_data fr = [tr])
      (frames out).
Proof.
  intros df. eexists. split; [vm_compute; reflexivity|].
  split; [reflexivity|].
  eapply List.Forall_impl;
    [|apply (animate_frame_rows None df "year" None plain_kwargs);
      vm_compute; reflexivity].
  intros fr (k & tr & Hk & Hn & Hd & _). exists k, tr. auto.
Defined.

(** *** Text columns and the grouping column *)

Lemma existsb_eqb_filter (c by_ : string) (l : list string) :
  existsb (String.eqb c) (List.filter (fun x => negb (String.eqb x by_)) l)
  = existsb (String.eqb c) l && negb (String.eqb c by_).
Proof.
  induction l as [|x l IH]; simpl; [reflexivity|].
  destruct (String.eqb_spec x by_) as [-> | Hx]; simpl.
  - rewrite IH. destruct (String.eqb_spec c by_) as [-> | Hc]; simpl.
    + now rewrite !andb_false_r.
    + reflexivity.
  - rewrite IH. destruct (String.eqb_spec c x) as [-> | Hc]; simpl.
    + destruct (String.eqb_spec x by_); [contradiction | reflexivity].
    + reflexivity.
Qed.

Lemma has_column_drop (g : GeoDataFrame) (by_ c : string) :
  has_column (drop g by_) c = has_column g c && negb (String.eqb c by_).
Proof. unfold has_column, drop. simpl. apply existsb_eqb_filter. Qed.

Lemma missing_column_drop_by (g : GeoDataFrame) (by_ : string)
    (cols : list string) :
  (forall c, In c cols -> has_column g c = true) -> In by_ cols ->
  missing_column (drop g by_) cols = Some by_.
Proof.
  induction cols as [|c cols IH]; simpl; intros Hall Hin; [destruct Hin|].
  rewrite has_column_drop, (Hall c (or_introl eq_refl)). simpl.
  destruct (String.eqb_spec c by_) as [-> | Hc]; simpl; [reflexivity|].
  destruct Hin as [-> | Hin]; [congruence|].
  apply IH; [|exact Hin]. intros x Hx. apply Hall. now right.
Qed.

Lemma missing_column_drop_other (g : GeoDataFrame) (by_ : string)
    (cols : list string) :
  (forall c, In c cols -> has_column g c = true /\ c <> by_) ->
  missing_column (drop g by_) cols = None.
Proof.
  intros Hall. apply missing_column_None. intros c Hc.
  destruct (Hall c Hc) as [Hh Hne]. rewrite has_column_drop, Hh. simpl.
  destruct (String.eqb_spec c by_); [contradiction | reflexivity].
Qed.

Lemma has_column_columns (g g' : GeoDataFrame) (c : string) :
  columns g = columns g' -> has_column g c = has_column g' c.
Proof. unfold has_column. now intros ->. Qed.

Lemma iplot_text_by (tok : option string) (g : GeoDataFrame) (by_ : string)
    (z : Q) (c : Center) (kw : animate_kwargs) (cols : list string) :
  kw_text kw = Some cols ->
  (forall x, In x cols -> has_column g x = true) -> In by_ cols ->
  iplot tok (drop g by_) z c kw = Raise (KeyError by_).
Proof.
  intros Ht Hall Hin. unfold iplot, build_figure. simpl. rewrite Ht.
  destruct cols as [|c1 cols]; [destruct Hin|].
  unfold mbind, result_bind. simpl truthy_list. cbn [bind default].
  unfold hover_text, id.
  rewrite (missing_column_drop_by g by_ (c1 :: cols) Hall Hin). reflexivity.
Qed.

Lemma iplot_text_ok (tok : option string) (g : GeoDataFrame) (by_ : string)
    (z : Q) (c : Center) (kw : animate_kwargs) :
  (forall cols x, kw_text kw = Some cols -> In x cols ->
                  has_column g x = true /\ x <> by_) ->
  exists fig, iplot tok (drop g by_) z c kw = Ok fig.
Proof.
  intros Hall. unfold iplot, build_figure. simpl.
  unfold mbind, result_bind. cbn [bind].
  destruct (kw_text kw) as [[|c1 cols]|] eqn:Et; simpl; eauto.
  unfold hover_text.
  rewrite (missing_column_drop_other g by_ (c1 :: cols)
             (fun x Hx => Hall _ x eq_refl Hx)).
  simpl. eauto.
Qed.

Lemma group_rows_nonempty (by_ : string) (fs : list Feature) :
  key_values by_ fs <> [] -> group_rows by_ fs <> [].
Proof.
  intros Hk Hg. destruct (key_values by_ fs) as [|k ks] eqn:E; [congruence|].
  destruct (group_rows_keys by_ fs) as [_ Hkeys].
  assert (Hin : In k (group_keys (group_rows by_ fs)))
    by (apply Hkeys; rewrite E; now left).
  rewrite Hg in Hin. destruct Hin.
Qed.

Lemma key_values_rows (by_ : string) (fs : list Feature) :
  key_values by_ fs <> [] -> fs <> [].
Proof. intros H ->. now apply H. Qed.

Lemma animate_text_by (tok : option string) (df : GeoDataFrame)
    (by_ : string) (fig : option Figure) (kw : animate_kwargs)
    (cols : list string) :
  kw_text kw = Some cols ->
  (forall x, In x cols -> has_column df x = true) -> In by_ cols ->
  key_values by_ (rows df) <> [] ->
  animate tok df by_ fig kw = Raise (KeyError by_).
Proof.
  intros Ht Hall Hin Hk. unfold animate, groupby.
  rewrite (Hall by_ Hin). unfold mbind, result_bind. cbn [bind].
  destruct (EntryFacts.get_auto_zoom_nonempty df (key_values_rows _ _ Hk))
    as [z ->].
  destruct (EntryFacts.get_auto_center_nonempty df (key_values_rows _ _ Hk))
    as [c ->].
  cbn [bind]. apply group_rows_nonempty in Hk.
  destruct (group_rows by_ (rows df)) as [|[k fs] gs]; [congruence|].
  unfold group_figs. simpl map. cbn [mapM]. cbn [fst snd].
  rewrite (iplot_text_by tok (mk_gdf (columns df) fs) by_ z c kw cols Ht);
    [reflexivity | | exact Hin].
  intros x Hx. rewrite <- (Hall x Hx). now apply has_column_columns.
Qed.

(** X12: hover text cannot use the grouping column in an animation: when
    the text columns, all columns of the Feature Set, include the grouping
    attribute and some feature has a value for it, the render raises the
    KeyError of the grouping attribute, because every group is drawn
    without that column. *)
Theorem plot_markers_text_on_group_key (tok : option string)
    (gdf : GeoDataFrame) (a : plot_args) (cols : list string) (by_ : string) :
  arg_text a = Some cols ->
  arg_animate_by a = Some by_ -> by_ <> "" ->
  (forall x, In x cols -> has_column gdf x = true) -> In by_ cols ->
  key_values by_ (rows gdf) <> [] ->
  plot_markers_with_mapbox tok gdf a = Raise (KeyError by_).
Proof.
  intros Ht Hby Hne Hall Hin Hk.
  unfold plot_markers_with_mapbox, build_figure. rewrite Ht, Hby.
  assert (Hrows := key_values_rows _ _ Hk).
  assert (Hcen : exists x, match arg_center a with
                           | None => get_auto_center gdf
                           | Some c => Ok c
                           end = Ok x).
  { destruct (arg_center a) as [x|]; [eauto|].
    now apply EntryFacts.get_auto_center_nonempty. }
  assert (Hzoom : exists z, match arg_zoom a with
                            | None => get_auto_zoom gdf
                            | Some z => Ok z
                            end = Ok z).
  { destruct (arg_zoom a) as [z|]; [eauto|].
    now apply EntryFacts.get_auto_zoom_nonempty. }
  destruct Hcen as [x ->], Hzoom as [z ->].
  assert (Hm : missing_column gdf cols = None)
    by (now apply missing_column_None).
  assert (Htl : truthy_list (Some cols) = true)
    by (destruct cols; [destruct Hin | reflexivity]).
  unfold mbind, result_bind. rewrite Htl.
  cbn [bind default]. unfold hover_text, id. rewrite Hm. cbn [bind].
  assert (Hty : truthy_str (Some by_) = true)
    by (destruct by_; [congruence | reflexivity]).
  rewrite Hty. cbn [default]. unfold id.
  rewrite (animate_text_by tok gdf by_ _
             (mk_animate_kwargs (Some cols) (arg_opacity a) (arg_size a)
                (arg_color a) (arg_mode a))
             cols eq_refl Hall Hin Hk).
  reflexivity.
Qed.

Lemma plot_markers_text_on_group_key_witness :
  plot_markers_with_mapbox None two_years
    (mk_args (Some ["year"]) None None None "markers" "darkblue" "basic" None
       true (1 # 2) (Some "year"))
  = Raise (KeyError "year").
Proof.
  apply (plot_markers_text_on_group_key None two_years _ ["year"] "year").
  - reflexivity.
  - reflexivity.
  - discriminate.
  - intros x [<- | []]. reflexivity.
  - simpl. auto.
  - vm_compute. discriminate.
Defined.

Lemma group_figs_total (tok : option string) (df : GeoDataFrame)
    (groups : list (Z * GeoDataFrame)) (by_ : string) (z : Q) (c : Center)
    (kw : animate_kwargs) :
  (forall g, In g groups -> columns (snd g) = columns df) ->
  (forall cols x, kw_text kw = Some cols -> In x cols ->
                  has_column df x = true /\ x <> by_) ->
  exists figs, group_figs tok groups by_ z c kw = Ok figs.
Proof.
  intros Hcols Hall. unfold group_figs.
  induction groups as [|g gs IH]; simpl; [eauto|].
  destruct (iplot_text_ok tok (snd g) by_ z c kw) as [fig Hfig].
  { intros cols x Ht Hx. destruct (Hall cols x Ht Hx) as [Hh Hne].
    split; [|exact Hne]. rewrite <- Hh.
    apply has_column_columns, Hcols. now left. }
  destruct IH as [figs Hfigs].
  { intros g' Hg'. apply Hcols. now right. }
  rewrite Hfig, Hfigs. unfold mbind, result_bind. cbn [bind]. eauto.
Qed.

(** X13: an animated render returns when the Feature Set is not empty, the
    grouping attribute and the text columns are columns of it, and the
    grouping attribute is not among the text columns; it has one Frame per
    group, named in group order. *)
Theorem plot_markers_animated_returns (tok : option string)
    (gdf : GeoDataFrame) (a : plot_args) (cols : list string) (by_ : string) :
  arg_text a = Some cols -> cols <> [] ->
  arg_animate_by a = Some by_ -> by_ <> "" ->
  has_column gdf by_ = true ->
  (forall x, In x cols -> has_column gdf x = true /\ x <> by_) ->
  rows gdf <> [] ->
  exists o,
    plot_markers_with_mapbox tok gdf a = Ok o /\
    map frame_name (frames (fig_of o))
      = map str (group_keys (group_rows by_ (rows gdf))).
Proof.
  intros Ht Hcols Hby Hne Hhas Hall Hrows.
  unfold plot_markers_with_mapbox, build_figure. rewrite Ht, Hby.
  assert (Hcen : exists x, match arg_center a with
                           | None => get_auto_center gdf
                           | Some c => Ok c
                           end = Ok x).
  { destruct (arg_center a) as [x|]; [eauto|].
    now apply EntryFacts.get_auto_center_nonempty. }
  assert (Hzoom : exists z, match arg_zoom a with
                            | None => get_auto_zoom gdf
                            | Some z => Ok z
                            end = Ok z).
  { destruct (arg_zoom a) as [z|]; [eauto|].
    now apply EntryFacts.get_auto_zoom_nonempty. }
  destruct Hcen as [x ->], Hzoom as [z ->].
  assert (Hm : missing_column gdf cols = None).
  { apply missing_column_None. intros c Hc. apply (Hall c Hc). }
  assert (Htl : truthy_list (Some cols) = true)
    by (destruct cols; [congruence | reflexivity]).
  unfold mbind, result_bind. rewrite Htl.
  cbn [bind default]. unfold hover_text, id. rewrite Hm. cbn [bind].
  assert (Hty : truthy_str (Some by_) = true)
    by (destruct by_; [congruence | reflexivity]).
  rewrite Hty. cbn [default]. unfold id.
  unfold animate, groupby. rewrite Hhas.
  unfold mbind, result_bind. cbn [bind].
  destruct (EntryFacts.get_auto_zoom_nonempty gdf Hrows) as [z' ->].
  destruct (EntryFacts.get_auto_center_nonempty gdf Hrows) as [x' ->].
  cbn [bind].
  destruct (group_figs_total tok gdf
              (map (fun g => (fst g, mk_gdf (columns gdf) (snd g)))
                 (group_rows by_ (rows gdf)))
              by_ z' x'
              (mk_animate_kwargs (Some cols) (arg_opacity a) (arg_size a)
                 (arg_color a) (arg_mode a)))
    as [figs Hfigs].
  { intros g Hg. apply in_map_iff in Hg. destruct Hg as [g0 [<- _]].
    reflexivity. }
  { simpl. intros cs y [= <-] Hy. now apply Hall. }
  rewrite Hfigs. cbn [bind].
  apply group_figs_inv in Hfigs. destruct Hfigs as [Hkeys _].
  assert (Hk2 : map fst figs = group_keys (group_rows by_ (rows gdf)))
    by (rewrite Hkeys, map_map; reflexivity).
  assert (Hnames : map frame_name (map frame_of figs)
                   = map str (group_keys (group_rows by_ (rows gdf)))).
  { rewrite <- Hk2, !map_map. reflexivity. }
  destruct (arg_return_fig a); eexists; (split; [reflexivity | exact Hnames]).
Qed.

Lemma plot_markers_animated_returns_witness :
  let gdf := mk_gdf ["year"; "name"] [named_row 2001 7 0; named_row 2000 8 10] in
  exists o,
    plot_markers_with_mapbox None gdf
      (mk_args (Some ["name"]) None None None "markers" "darkblue" "basic"
         None true (1 # 2) (Some "year")) = Ok o /\
    map frame_name (frames (fig_of o)) = ["2000"; "2001"].
Proof.
  intros gdf.
  destruct (plot_markers_animated_returns None gdf
              (mk_args (Some ["name"]) None None None "markers" "darkblue"
                 "basic" None true (1 # 2) (Some "year"))
              ["name"] "year" eq_refl)
    as [o [Ho Hn]].
  - discriminate.
  - reflexivity.
  - discriminate.
  - reflexivity.
  - intros x [<- | []]. split; [reflexivity | discriminate].
  - simpl. discriminate.
  - exists o. split; [exact Ho | exact Hn].
Defined.

End FrameFacts.
